(** * LongPort gateway adapter (vnpy_longport/longport_gateway.py)

    A shallow embedding of [LongPortGateway]: the adapter between the host
    trading platform (gateway base class, event engine, typed records) and
    the brokerage SDK (quote and trade contexts).  Methods of the class are
    computations in a state-and-exception monad over the adapter's
    attributes, the tick objects they point to, the host's event queue and
    a trace of the SDK calls made. *)

From stdpp Require Import gmap strings list.

(** ** Host enumerations (vnpy.trader.constant)

    The adapter compares against the members named below; every other
    member of a host enumeration is carried by its value. *)

Inductive Exchange := SEHK | NYSE | OtherExchange (value : string).
Inductive OrderType := LIMIT | MARKET | OtherOrderType (value : string).
Inductive Direction := LONG | SHORT | OtherDirection (value : string).
Inductive Interval := MINUTE | HOUR | DAILY | OtherInterval (value : string).
Inductive Status := SUBMITTING | OtherStatus (value : string).

(** ** SDK enumerations (longport.openapi) *)

Inductive SubType := Quote.
Inductive LongPortOrderType := LO | MO.
Inductive OrderSide := Buy | Sell.
Inductive TimeInForceType := Day.
Inductive Period := Min1 | Hour1 | PeriodDay.
Inductive AdjustType := NoAdjust.

(** ** Strings *)

(** [str.endswith]: some tail of [s] is [suffix]. *)
Fixpoint endswith (s suffix : string) : bool :=
  if String.eqb s suffix then true
  else match s with
       | EmptyString => false
       | String _ s' => endswith s' suffix
       end.

(** Whether the byte [c] occurs in [s]. *)
Fixpoint has_byte (c : Ascii.ascii) (s : string) : bool :=
  match s with
  | EmptyString => false
  | String a s' => if Ascii.eqb a c then true else has_byte c s'
  end.

(** The byte of the equals sign, 61, lowest bit first. *)
Definition equals_sign : Ascii.ascii :=
  Ascii.Ascii true false true true true true false false.

(** ** Pure conversions (lines 300-340) *)

Definition _convert_symbol (symbol : string) (exchange : Exchange) : string :=
  match exchange with
  | SEHK => symbol +:+ ".HK"
  | NYSE => symbol +:+ ".US"
  | OtherExchange _ => symbol
  end.

Definition _convert_order_type (order_type : OrderType) : LongPortOrderType :=
  match order_type with
  | LIMIT => LO
  | MARKET => MO
  | OtherOrderType _ => LO
  end.

Definition _convert_direction (direction : Direction) : OrderSide :=
  match direction with
  | LONG => Buy
  | SHORT => Sell
  | OtherDirection _ => Buy
  end.

Definition _convert_interval (interval : Interval) : Period :=
  match interval with
  | MINUTE => Min1
  | HOUR => Hour1
  | DAILY => PeriodDay
  | OtherInterval _ => PeriodDay
  end.

Definition _get_exchange (symbol : string) : Exchange :=
  if endswith symbol ".HK" then SEHK
  else if endswith symbol ".US" then NYSE
  else SEHK.

(** ** Numbers

    The SDK hands over [decimal.Decimal] values (and plain integers for
    volumes); the adapter passes each through Python's [float()], and
    turns the host's prices and volumes into decimals with
    [Decimal(str(x))].  Both number types and both conversions belong to
    the Python runtime, so they are parameters of the development.  The
    SDK's numbers are finite, hence [float()] is total on them. *)

Inductive number (F : Type) :=
  | PyInt (z : Z)
  | PyFloat (f : F).
Arguments PyInt {F} z.
Arguments PyFloat {F} f.

Class Numerics := {
  Decimal : Type;
  Float : Type;
  float : Decimal -> Float;
  Decimal_str : number Float -> Decimal
}.

(** [datetime] values, as a count of microseconds. *)
Definition datetime := Z.

(** Python exceptions, by their [str(e)]. *)
Definition exn := string.

Inductive result (A : Type) :=
  | Ok (a : A)
  | Exc (e : exn).
Arguments Ok {A} a.
Arguments Exc {A} e.

Section Model.
Context `{Numerics}.

(** ** Host records (vnpy.trader.object)

    Each record lists the constructor arguments the adapter passes and the
    attributes it reads or writes.  Tick fields that the adapter does not
    pass start at the host's default, the integer 0. *)

Record SubscribeRequest := {
  sub_symbol : string;
  sub_exchange : Exchange
}.

Record OrderRequest := {
  req_symbol : string;
  req_exchange : Exchange;
  req_direction : Direction;
  req_type : OrderType;
  req_volume : number Float;
  req_price : number Float
}.

Record CancelRequest := {
  cancel_orderid : string;
  cancel_symbol : string;
  cancel_exchange : Exchange
}.

Record HistoryRequest := {
  hist_symbol : string;
  hist_exchange : Exchange;
  hist_start : datetime;
  hist_end : datetime;
  hist_interval : Interval
}.

Record TickData := {
  tick_symbol : string;
  tick_exchange : Exchange;
  tick_datetime : datetime;
  tick_gateway_name : string;
  tick_volume : number Float;
  tick_last_price : number Float;
  tick_open_price : number Float;
  tick_high_price : number Float;
  tick_low_price : number Float;
  tick_pre_close : number Float
}.

Record OrderData := {
  order_symbol : string;
  order_exchange : Exchange;
  orderid : string;
  order_type : OrderType;
  order_direction : Direction;
  order_price : number Float;
  order_volume : number Float;
  order_status : Status;
  order_datetime : datetime;
  order_gateway_name : string
}.

(** Modelled from the spec: OrderData is declared in vnpy.trader.object,
    which is not among the sources.  Its composite identifier is the
    gateway name joined with the broker order id by the host's dot. *)
Definition vt_orderid (o : OrderData) : string :=
  order_gateway_name o +:+ "." +:+ orderid o.

Record AccountData := {
  accountid : string;
  balance : Float;
  frozen : Float;
  account_gateway_name : string
}.

Record PositionData := {
  pos_symbol : string;
  pos_exchange : Exchange;
  pos_direction : Direction;
  pos_volume : Float;
  pos_price : Float;
  pos_pnl : Float;
  pos_gateway_name : string
}.

Record BarData := {
  bar_symbol : string;
  bar_exchange : Exchange;
  bar_datetime : datetime;
  bar_interval : Interval;
  bar_open_price : Float;
  bar_high_price : Float;
  bar_low_price : Float;
  bar_close_price : Float;
  bar_volume : Float;
  bar_gateway_name : string
}.

(** The [contracts] dictionary is created empty and never touched. *)
Inductive ContractData := .

(** ** SDK records (longport.openapi), by the attributes the adapter reads *)

Record Config := {
  app_key : string;
  app_secret : string;
  access_token : string
}.

Record SubmitOrderResponse := {
  order_id : string
}.

Record CashInfo := {
  currency : string;
  withdraw_cash : Decimal;
  frozen_cash : Decimal
}.

Record AccountBalance := {
  cash_infos : list CashInfo
}.

Record StockPosition := {
  sp_symbol : string;
  quantity : Decimal;
  avg_cost : Decimal;
  unrealized_pnl : Decimal
}.

Record StockPositionChannel := {
  positions : list StockPosition
}.

Record StockPositionsResponse := {
  channels : list StockPositionChannel
}.

Record Candlestick := {
  cs_timestamp : datetime;
  cs_open : Decimal;
  cs_high : Decimal;
  cs_low : Decimal;
  cs_close : Decimal;
  cs_volume : Decimal
}.

Record PushQuote := {
  last_done : Decimal;
  pq_volume : Decimal;
  pq_open : Decimal;
  pq_high : Decimal;
  pq_low : Decimal;
  prev_close : Decimal
}.

(** ** The SDK contexts

    A context is known by how it answers each call: with a value or with
    an exception. *)

Record QuoteContext := {
  qc_set_on_quote : result unit;
  qc_subscribe : list string -> list SubType -> result unit;
  qc_candlesticks :
    string -> Period -> Z -> AdjustType -> result (list Candlestick);
  qc_close : result unit
}.

Record TradeContext := {
  tc_submit_order :
    string -> LongPortOrderType -> OrderSide -> Decimal ->
    TimeInForceType -> Decimal -> result SubmitOrderResponse;
  tc_cancel_order : string -> result unit;
  tc_account_balance : result (list AccountBalance);
  tc_stock_positions : result StockPositionsResponse;
  tc_close : result unit
}.

(** The SDK entry points used by [connect]. *)
Record Sdk := {
  Config_from_env : gmap string string -> result Config;
  new_QuoteContext : Config -> result QuoteContext;
  new_TradeContext : Config -> result TradeContext
}.

(** Every call that crosses into the SDK, with its arguments. *)
Inductive SdkCall :=
  | CallConfigFromEnv
  | CallQuoteContext (c : Config)
  | CallTradeContext (c : Config)
  | CallSetOnQuote
  | CallQuoteClose
  | CallTradeClose
  | CallSubscribe (symbols : list string) (sub_types : list SubType)
  | CallSubmitOrder (symbol : string) (order_type : LongPortOrderType)
      (side : OrderSide) (submitted_quantity : Decimal)
      (time_in_force : TimeInForceType) (submitted_price : Decimal)
  | CallCancelOrder (order_id : string)
  | CallAccountBalance
  | CallStockPositions
  | CallCandlesticks (symbol : string) (period : Period) (count : Z)
      (adjust_type : AdjustType).

(** ** Events

    Tick objects are mutable and shared between the tick cache and the
    events that carry them, so they live in a store and are named by
    their position in it. *)

Definition tick_ref := nat.

(** The value interpolated into the f-string of a log line. *)
Inductive Interpolated :=
  | NoValue
  | ExcValue (e : exn)
  | StrValue (s : string)
  | PeriodValue (p : Period)
  | AccountsValue (accounts : list AccountBalance)
  | AccountDataValue (a : AccountData)
  | PositionsValue (r : StockPositionsResponse)
  | PositionDataValue (p : PositionData)
  | CandlesticksValue (bars : list Candlestick)
  | BarsValue (bars : list BarData).

Record LogData := {
  msg : string;
  msg_value : Interpolated;
  log_gateway_name : string
}.

Inductive Event :=
  | EventTick (t : tick_ref)
  | EventOrder (o : OrderData)
  | EventAccount (a : AccountData)
  | EventPosition (p : PositionData)
  | EventLog (l : LogData).

Definition is_order_event (e : Event) : bool :=
  match e with EventOrder _ => true | _ => false end.
Definition is_tick_event (e : Event) : bool :=
  match e with EventTick _ => true | _ => false end.
Definition is_account_event (e : Event) : bool :=
  match e with EventAccount _ => true | _ => false end.
Definition is_position_event (e : Event) : bool :=
  match e with EventPosition _ => true | _ => false end.
Definition is_log_event (e : Event) : bool :=
  match e with EventLog _ => true | _ => false end.

(** ** The adapter and its surroundings *)

(** The attributes of a [LongPortGateway] instance (lines 41-51). *)
Record LongPortGateway := {
  gateway_name : string;
  quote_ctx : option QuoteContext;
  trade_ctx : option TradeContext;
  ticks : gmap string tick_ref;
  orders : gmap string OrderData;
  accounts : gmap string AccountData;
  contracts : gmap string ContractData
}.

Record World := {
  self : LongPortGateway;
  tick_objects : list TickData;
  event_queue : list Event;
  environ : gmap string string;
  sdk_calls : list SdkCall
}.

(** [__init__] (lines 41-51). *)
Definition __init__ (name : string) : LongPortGateway :=
  {| gateway_name := name;
     quote_ctx := None;
     trade_ctx := None;
     ticks := ∅;
     orders := ∅;
     accounts := ∅;
     contracts := ∅ |}.

(** ** Method bodies as computations

    A method runs against the world and either returns or raises; what it
    changed before raising stays changed. *)

Definition M (A : Type) : Type := World -> result A * World.

#[global] Instance M_ret : MRet M := fun A a w => (Ok a, w).

#[global] Instance M_bind : MBind M := fun A B k m w =>
  match m w with
  | (Ok a, w') => k a w'
  | (Exc e, w') => (Exc e, w')
  end.

(** [try: body / except Exception as e: handler]. *)
Definition try_except {A} (body : M A) (handler : exn -> M A) : M A :=
  fun w =>
    match body w with
    | (Ok a, w') => (Ok a, w')
    | (Exc e, w') => handler e w'
    end.

Definition get_world : M World := fun w => (Ok w, w).
Definition modify (f : World -> World) : M unit := fun w => (Ok tt, f w).
Definition raise {A} (e : exn) : M A := fun w => (Exc e, w).

(** [for x in l: body]. *)
Fixpoint for_each {A} (l : list A) (body : A -> M unit) : M unit :=
  match l with
  | [] => mret tt
  | x :: l' => body x;; for_each l' body
  end.

Definition with_self (f : LongPortGateway -> LongPortGateway) (w : World) : World :=
  {| self := f (self w);
     tick_objects := tick_objects w;
     event_queue := event_queue w;
     environ := environ w;
     sdk_calls := sdk_calls w |}.

Definition set_quote_ctx (q : option QuoteContext) : M unit :=
  modify (with_self (fun g =>
    {| gateway_name := gateway_name g; quote_ctx := q;
       trade_ctx := trade_ctx g; ticks := ticks g; orders := orders g;
       accounts := accounts g; contracts := contracts g |})).

Definition set_trade_ctx (t : option TradeContext) : M unit :=
  modify (with_self (fun g =>
    {| gateway_name := gateway_name g; quote_ctx := quote_ctx g;
       trade_ctx := t; ticks := ticks g; orders := orders g;
       accounts := accounts g; contracts := contracts g |})).

(** [self.ticks[symbol] = tick]. *)
Definition set_tick (symbol : string) (t : tick_ref) : M unit :=
  modify (with_self (fun g =>
    {| gateway_name := gateway_name g; quote_ctx := quote_ctx g;
       trade_ctx := trade_ctx g; ticks := <[symbol := t]> (ticks g);
       orders := orders g; accounts := accounts g;
       contracts := contracts g |})).

(** [self.orders[id] = order]. *)
Definition set_order (id : string) (o : OrderData) : M unit :=
  modify (with_self (fun g =>
    {| gateway_name := gateway_name g; quote_ctx := quote_ctx g;
       trade_ctx := trade_ctx g; ticks := ticks g;
       orders := <[id := o]> (orders g); accounts := accounts g;
       contracts := contracts g |})).

(** A new tick object: stored after the existing ones. *)
Definition new_tick (t : TickData) : M tick_ref :=
  fun w =>
    (Ok (length (tick_objects w)),
     {| self := self w;
        tick_objects := tick_objects w ++ [t];
        event_queue := event_queue w;
        environ := environ w;
        sdk_calls := sdk_calls w |}).

(** Attribute assignments on the tick object behind [r]. *)
Definition update_tick (r : tick_ref) (f : TickData -> TickData) : M unit :=
  modify (fun w =>
    {| self := self w;
       tick_objects := alter f r (tick_objects w);
       event_queue := event_queue w;
       environ := environ w;
       sdk_calls := sdk_calls w |}).

(** [os.environ[k] = v].  The assignment goes through [os.putenv], which
    raises ValueError for a name or a value with an embedded NUL byte, and
    for an empty name or one with an equals sign; nothing is written
    then. *)
Definition setenv (k v : string) : M unit :=
  if has_byte Ascii.zero k || has_byte Ascii.zero v
  then raise "embedded null byte"
  else if String.eqb k "" || has_byte equals_sign k
  then raise "illegal environment variable name"
  else
    modify (fun w =>
      {| self := self w;
         tick_objects := tick_objects w;
         event_queue := event_queue w;
         environ := <[k := v]> (environ w);
         sdk_calls := sdk_calls w |}).

(** [setting[k]]: KeyError on a missing key. *)
Definition getitem (setting : gmap string string) (k : string) : M string :=
  match setting !! k with
  | Some v => mret v
  | None => raise ("'" +:+ k +:+ "'")
  end.

(** A call into the SDK: recorded, then answered. *)
Definition sdk_call {A} (c : SdkCall) (answer : result A) : M A :=
  fun w =>
    (answer,
     {| self := self w;
        tick_objects := tick_objects w;
        event_queue := event_queue w;
        environ := environ w;
        sdk_calls := sdk_calls w ++ [c] |}).

(** Modelled from the spec: BaseGateway is declared in vnpy.trader.gateway,
    which is not among the sources.  Its callbacks [on_tick], [on_order],
    [on_account], [on_position] and [write_log] are the adapter's way out
    to the host: each call emits one event of its kind, carrying the
    argument of the call. *)
Definition emit (e : Event) : M unit :=
  modify (fun w =>
    {| self := self w;
       tick_objects := tick_objects w;
       event_queue := event_queue w ++ [e];
       environ := environ w;
       sdk_calls := sdk_calls w |}).

Definition on_tick (t : tick_ref) : M unit := emit (EventTick t).
Definition on_order (o : OrderData) : M unit := emit (EventOrder o).
Definition on_account (a : AccountData) : M unit := emit (EventAccount a).
Definition on_position (p : PositionData) : M unit := emit (EventPosition p).

Definition write_log (text : string) (v : Interpolated) : M unit :=
  w ← get_world;
  emit (EventLog {| msg := text; msg_value := v;
                    log_gateway_name := gateway_name (self w) |}).

(** ** The methods of [LongPortGateway]

    [datetime.now()] is read from the caller: each method that asks for
    the time takes it as [now]. *)

(** [connect] (lines 53-75). *)
Definition connect (setting : gmap string string) (lib : Sdk) : M unit :=
  try_except
    (key ← getitem setting "app_key";
     setenv "LONGPORT_APP_KEY" key;;
     secret ← getitem setting "app_secret";
     setenv "LONGPORT_APP_SECRET" secret;;
     token ← getitem setting "access_token";
     setenv "LONGPORT_ACCESS_TOKEN" token;;
     w ← get_world;
     config ← sdk_call CallConfigFromEnv (Config_from_env lib (environ w));
     q ← sdk_call (CallQuoteContext config) (new_QuoteContext lib config);
     set_quote_ctx (Some q);;
     t ← sdk_call (CallTradeContext config) (new_TradeContext lib config);
     set_trade_ctx (Some t);;
     sdk_call CallSetOnQuote (qc_set_on_quote q);;
     write_log "长桥接口连接成功" NoValue)
    (fun e => write_log "长桥接口连接失败：" (ExcValue e)).

(** [close] (lines 77-82). *)
Definition close : M unit :=
  w ← get_world;
  match quote_ctx (self w) with
  | Some q => sdk_call CallQuoteClose (qc_close q)
  | None => mret tt
  end;;
  w ← get_world;
  match trade_ctx (self w) with
  | Some t => sdk_call CallTradeClose (tc_close t)
  | None => mret tt
  end.

(** [subscribe] (lines 84-102).  A context object is truthy, so
    [if not self.quote_ctx] is the test for [None]; there is no [try]
    around the SDK call. *)
Definition subscribe (req : SubscribeRequest) (now : datetime) : M unit :=
  w ← get_world;
  match quote_ctx (self w) with
  | None => mret tt
  | Some ctx =>
      let symbol := _convert_symbol (sub_symbol req) (sub_exchange req) in
      sdk_call (CallSubscribe [symbol] [Quote])
               (qc_subscribe ctx [symbol] [Quote]);;
      tick ← new_tick
        {| tick_symbol := sub_symbol req;
           tick_exchange := sub_exchange req;
           tick_datetime := now;
           tick_gateway_name := gateway_name (self w);
           tick_volume := PyInt 0;
           tick_last_price := PyInt 0;
           tick_open_price := PyInt 0;
           tick_high_price := PyInt 0;
           tick_low_price := PyInt 0;
           tick_pre_close := PyInt 0 |};
      set_tick symbol tick
  end.

(** [send_order] (lines 104-150). *)
Definition send_order (req : OrderRequest) (now : datetime) : M string :=
  w ← get_world;
  match trade_ctx (self w) with
  | None => mret ""
  | Some ctx =>
      let symbol := _convert_symbol (req_symbol req) (req_exchange req) in
      let order_type := _convert_order_type (req_type req) in
      let side := _convert_direction (req_direction req) in
      try_except
        (resp ← sdk_call
           (CallSubmitOrder symbol order_type side
              (Decimal_str (req_volume req)) Day (Decimal_str (req_price req)))
           (tc_submit_order ctx symbol order_type side
              (Decimal_str (req_volume req)) Day (Decimal_str (req_price req)));
         let order :=
           {| order_symbol := req_symbol req;
              order_exchange := req_exchange req;
              orderid := order_id resp;
              order_type := req_type req;
              order_direction := req_direction req;
              order_price := req_price req;
              order_volume := req_volume req;
              order_status := SUBMITTING;
              order_datetime := now;
              order_gateway_name := gateway_name (self w) |} in
         set_order (order_id resp) order;;
         on_order order;;
         mret (vt_orderid order))
        (fun e => write_log "委托下单失败：" (ExcValue e);; mret "")
  end.

(** [cancel_order] (lines 152-160). *)
Definition cancel_order (req : CancelRequest) : M unit :=
  w ← get_world;
  match trade_ctx (self w) with
  | None => mret tt
  | Some ctx =>
      try_except
        (sdk_call (CallCancelOrder (cancel_orderid req))
                  (tc_cancel_order ctx (cancel_orderid req)))
        (fun e => write_log "委托撤单失败：" (ExcValue e))
  end.

(** The loop body of [query_account] (lines 183-193). *)
Definition emit_cash_info (name : string) (cash_info : CashInfo) : M unit :=
  let account_data :=
    {| accountid := currency cash_info;
       balance := float (withdraw_cash cash_info);
       frozen := float (frozen_cash cash_info);
       account_gateway_name := name |} in
  write_log "创建资金对象：" (AccountDataValue account_data);;
  on_account account_data;;
  write_log "资金对象已发送到事件引擎" NoValue.

(** [query_account] (lines 162-196).  [if not accounts] is the test for
    the empty list; [accounts[0]] is the only account looked at. *)
Definition query_account : M unit :=
  w ← get_world;
  match trade_ctx (self w) with
  | None => write_log "查询资金失败：交易上下文未初始化" NoValue
  | Some ctx =>
      try_except
        (write_log "开始获取账户信息..." NoValue;;
         accounts ← sdk_call CallAccountBalance (tc_account_balance ctx);
         write_log "获取到账户信息：" (AccountsValue accounts);;
         match accounts with
         | [] => write_log "未获取到账户信息" NoValue
         | account :: _ =>
             for_each (cash_infos account)
                      (emit_cash_info (gateway_name (self w)))
         end)
        (fun e => write_log "查询资金失败：" (ExcValue e))
  end.

(** The inner loop body of [query_position] (lines 214-226). *)
Definition emit_position (name : string) (pos : StockPosition) : M unit :=
  let position :=
    {| pos_symbol := sp_symbol pos;
       pos_exchange := _get_exchange (sp_symbol pos);
       pos_direction := LONG;
       pos_volume := float (quantity pos);
       pos_price := float (avg_cost pos);
       pos_pnl := float (unrealized_pnl pos);
       pos_gateway_name := name |} in
  write_log "创建持仓对象：" (PositionDataValue position);;
  on_position position;;
  write_log "持仓对象已发送到事件引擎" NoValue.

(** [query_position] (lines 198-229). *)
Definition query_position : M unit :=
  w ← get_world;
  match trade_ctx (self w) with
  | None => write_log "查询持仓失败：交易上下文未初始化" NoValue
  | Some ctx =>
      try_except
        (write_log "开始获取持仓信息..." NoValue;;
         response ← sdk_call CallStockPositions (tc_stock_positions ctx);
         write_log "获取到持仓信息：" (PositionsValue response);;
         for_each (channels response) (fun channel =>
           for_each (positions channel)
                    (emit_position (gateway_name (self w)))))
        (fun e => write_log "查询持仓失败：" (ExcValue e))
  end.

(** One [BarData] of [query_history] (lines 262-273). *)
Definition bar_data (req : HistoryRequest) (name : string) (bar : Candlestick)
  : BarData :=
  {| bar_symbol := hist_symbol req;
     bar_exchange := hist_exchange req;
     bar_datetime := cs_timestamp bar;
     bar_interval := hist_interval req;
     bar_open_price := float (cs_open bar);
     bar_high_price := float (cs_high bar);
     bar_low_price := float (cs_low bar);
     bar_close_price := float (cs_close bar);
     bar_volume := float (cs_volume bar);
     bar_gateway_name := name |}.

(** The conversion loop of [query_history] (lines 260-274): [result]
    starts empty and each bar is appended to it. *)
Definition convert_bars (req : HistoryRequest) (name : string)
    (bars : list Candlestick) : list BarData :=
  fold_left (fun result bar => result ++ [bar_data req name bar]) bars [].

(** [query_history] (lines 231-281). *)
Definition query_history (req : HistoryRequest) : M (list BarData) :=
  w ← get_world;
  match quote_ctx (self w) with
  | None =>
      write_log "查询历史数据失败：行情上下文未初始化" NoValue;;
      mret []
  | Some ctx =>
      try_except
        (let symbol := _convert_symbol (hist_symbol req) (hist_exchange req) in
         write_log "转换后的合约代码：" (StrValue symbol);;
         let period := _convert_interval (hist_interval req) in
         write_log "转换后的时间周期：" (PeriodValue period);;
         let count := 100%Z in
         write_log "开始获取历史数据..." NoValue;;
         bars ← sdk_call (CallCandlesticks symbol period count NoAdjust)
                         (qc_candlesticks ctx symbol period count NoAdjust);
         write_log "获取到历史数据：" (CandlesticksValue bars);;
         let result := convert_bars req (gateway_name (self w)) bars in
         write_log "转换后的历史数据：" (BarsValue result);;
         mret result)
        (fun e => write_log "查询历史数据失败：" (ExcValue e);; mret [])
  end.

(** The attribute assignments of [on_quote] (lines 290-296). *)
Definition apply_quote (event : PushQuote) (now : datetime) (tick : TickData)
  : TickData :=
  {| tick_symbol := tick_symbol tick;
     tick_exchange := tick_exchange tick;
     tick_datetime := now;
     tick_gateway_name := tick_gateway_name tick;
     tick_volume := PyFloat (float (pq_volume event));
     tick_last_price := PyFloat (float (last_done event));
     tick_open_price := PyFloat (float (pq_open event));
     tick_high_price := PyFloat (float (pq_high event));
     tick_low_price := PyFloat (float (pq_low event));
     tick_pre_close := PyFloat (float (prev_close event)) |}.

(** [on_quote] (lines 283-298).  A tick object is truthy, so [if not tick]
    is the test for a missing key. *)
Definition on_quote (symbol : string) (event : PushQuote) (now : datetime)
  : M unit :=
  w ← get_world;
  match ticks (self w) !! symbol with
  | None => mret tt
  | Some tick =>
      update_tick tick (apply_quote event now);;
      on_tick tick
  end.

(** ** Sequences of operations

    The host calls the methods one after another, and the SDK calls
    [on_quote] in between; an exception ends the call that raised it and
    the adapter lives on. *)

Inductive Op :=
  | OpConnect (setting : gmap string string) (lib : Sdk)
  | OpClose
  | OpSubscribe (req : SubscribeRequest) (now : datetime)
  | OpSendOrder (req : OrderRequest) (now : datetime)
  | OpCancelOrder (req : CancelRequest)
  | OpQueryAccount
  | OpQueryPosition
  | OpQueryHistory (req : HistoryRequest)
  | OpOnQuote (symbol : string) (event : PushQuote) (now : datetime).

Definition step (w : World) (op : Op) : World :=
  match op with
  | OpConnect setting lib => (connect setting lib w).2
  | OpClose => (close w).2
  | OpSubscribe req now => (subscribe req now w).2
  | OpSendOrder req now => (send_order req now w).2
  | OpCancelOrder req => (cancel_order req w).2
  | OpQueryAccount => (query_account w).2
  | OpQueryPosition => (query_position w).2
  | OpQueryHistory req => (query_history req w).2
  | OpOnQuote symbol event now => (on_quote symbol event now w).2
  end.

Definition run (ops : list Op) (w : World) : World := fold_left step ops w.

(** The events of one kind in a queue. *)
Definition order_events (q : list Event) : list Event := List.filter is_order_event q.
Definition tick_events (q : list Event) : list Event := List.filter is_tick_event q.
Definition account_events (q : list Event) : list Event := List.filter is_account_event q.
Definition position_events (q : list Event) : list Event := List.filter is_position_event q.

(** What a call added to the event queue. *)
Definition emitted (before after : World) : list Event :=
  drop (length (event_queue before)) (event_queue after).

(** The world with [new] added to the event queue. *)
Definition with_events (new : list Event) (w : World) : World :=
  {| self := self w;
     tick_objects := tick_objects w;
     event_queue := event_queue w ++ new;
     environ := environ w;
     sdk_calls := sdk_calls w |}.

(** The world with [c] added to the trace of SDK calls. *)
Definition with_call (c : SdkCall) (w : World) : World :=
  {| self := self w;
     tick_objects := tick_objects w;
     event_queue := event_queue w;
     environ := environ w;
     sdk_calls := sdk_calls w ++ [c] |}.

(** Everything but the event queue is as it was. *)
Definition untouched (before after : World) : Prop :=
  self after = self before /\
  tick_objects after = tick_objects before /\
  environ after = environ before /\
  sdk_calls after = sdk_calls before.

(** The tick cache holds the same references under the same keys. *)
Definition same_ticks (before after : World) : Prop :=
  ticks (self after) = ticks (self before).

(** A computation that relates every world to the one it leaves. *)
Definition respects {A} (R : World -> World -> Prop) (m : M A) : Prop :=
  forall w, R w (m w).2.

(** ** Vocabulary for the adapter over its lifetime *)

(** A computation that returns, whatever the world. *)
Definition returns {A} (m : M A) : Prop :=
  forall w, exists a, (m w).1 = Ok a.

(** The adapter's attributes, the tick objects and the environment are as
    they were. *)
Definition same_adapter (before after : World) : Prop :=
  self after = self before /\
  tick_objects after = tick_objects before /\
  environ after = environ before.

(** The attributes that are set once, in [__init__]. *)
Definition same_identity (before after : World) : Prop :=
  gateway_name (self after) = gateway_name (self before) /\
  accounts (self after) = accounts (self before) /\
  contracts (self after) = contracts (self before).

Definition same_contexts (before after : World) : Prop :=
  quote_ctx (self after) = quote_ctx (self before) /\
  trade_ctx (self after) = trade_ctx (self before).

Definition same_orders (before after : World) : Prop :=
  orders (self after) = orders (self before).

(** The tick cache and the tick objects are as they were. *)
Definition same_tick_store (before after : World) : Prop :=
  ticks (self after) = ticks (self before) /\
  tick_objects after = tick_objects before.

(** Every cached reference points to a stored tick object. *)
Definition ticks_stored (w : World) : Prop :=
  forall symbol r,
    ticks (self w) !! symbol = Some r -> r < length (tick_objects w).

(** Every recorded order sits under its own broker id, as submitted by
    this gateway. *)
Definition orders_as_submitted (w : World) : Prop :=
  forall id o,
    orders (self w) !! id = Some o ->
    orderid o = id /\
    order_status o = SUBMITTING /\
    order_gateway_name o = gateway_name (self w).

Definition is_connect (op : Op) : bool :=
  match op with OpConnect _ _ => true | _ => false end.

Definition is_send_order (op : Op) : bool :=
  match op with OpSendOrder _ _ => true | _ => false end.

End Model.

(** ** A small instance

    For examples, amounts are counted in hundredths on both sides, so
    that [float()] keeps the count and an integer is scaled by 100. *)

Definition hundredths : Numerics :=
  {| Decimal := Z;
     Float := Z;
     float := fun d => d;
     Decimal_str := fun x =>
       match x with
       | PyInt z => (100 * z)%Z
       | PyFloat f => f
       end |}.

Section Samples.
#[local] Existing Instance hundredths.

Definition sample_bars : list Candlestick :=
  [ {| cs_timestamp := 1700000000; cs_open := 32000; cs_high := 32500;
       cs_low := 31800; cs_close := 32400; cs_volume := 1200000 |};
    {| cs_timestamp := 1700086400; cs_open := 32400; cs_high := 33000;
       cs_low := 32300; cs_close := 32900; cs_volume := 900000 |} ]%Z.

Definition sample_quote_ctx : QuoteContext :=
  {| qc_set_on_quote := Ok tt;
     qc_subscribe := fun _ _ => Ok tt;
     qc_candlesticks := fun _ _ _ _ => Ok sample_bars;
     qc_close := Ok tt |}.

Definition failing_quote_ctx : QuoteContext :=
  {| qc_set_on_quote := Ok tt;
     qc_subscribe := fun _ _ => Exc "subscribe rejected";
     qc_candlesticks := fun _ _ _ _ => Exc "request timeout";
     qc_close := Ok tt |}.

Definition sample_accounts : list AccountBalance :=
  [ {| cash_infos :=
         [ {| currency := "HKD"; withdraw_cash := 1000000; frozen_cash := 2500 |};
           {| currency := "USD"; withdraw_cash := 50000; frozen_cash := 0 |} ] |};
    {| cash_infos :=
         [ {| currency := "SGD"; withdraw_cash := 700; frozen_cash := 0 |} ] |} ]%Z.

Definition sample_positions : StockPositionsResponse :=
  {| channels :=
       [ {| positions :=
              [ {| sp_symbol := "700.HK"; quantity := 10000;
                   avg_cost := 32000; unrealized_pnl := 4000 |};
                {| sp_symbol := "AAPL.US"; quantity := 500;
                   avg_cost := 18000; unrealized_pnl := (-250) |} ] |} ] |}%Z.

Definition sample_trade_ctx : TradeContext :=
  {| tc_submit_order := fun _ _ _ _ _ _ => Ok {| order_id := "1001" |};
     tc_cancel_order := fun _ => Ok tt;
     tc_account_balance := Ok sample_accounts;
     tc_stock_positions := Ok sample_positions;
     tc_close := Ok tt |}.

Definition failing_trade_ctx : TradeContext :=
  {| tc_submit_order := fun _ _ _ _ _ _ => Exc "order rejected";
     tc_cancel_order := fun _ => Exc "order not found";
     tc_account_balance := Exc "request timeout";
     tc_stock_positions := Exc "request timeout";
     tc_close := Ok tt |}.

Definition no_account_trade_ctx : TradeContext :=
  {| tc_submit_order := fun _ _ _ _ _ _ => Exc "order rejected";
     tc_cancel_order := fun _ => Ok tt;
     tc_account_balance := Ok [];
     tc_stock_positions := Ok {| channels := [] |};
     tc_close := Ok tt |}.

Definition sample_sdk : Sdk :=
  {| Config_from_env := fun env =>
       match env !! "LONGPORT_APP_KEY", env !! "LONGPORT_APP_SECRET",
             env !! "LONGPORT_ACCESS_TOKEN" with
       | Some k, Some s, Some t =>
           Ok {| app_key := k; app_secret := s; access_token := t |}
       | _, _, _ => Exc "missing credentials"
       end;
     new_QuoteContext := fun _ => Ok sample_quote_ctx;
     new_TradeContext := fun _ => Ok sample_trade_ctx |}.

Definition sample_setting : gmap string string :=
  <["app_key" := "key"]> (<["app_secret" := "secret"]>
    (<["access_token" := "token"]> ∅)).

(** A gateway named LONGPORT with the given contexts and nothing else. *)
Definition world_with (q : option QuoteContext) (t : option TradeContext)
  : World :=
  {| self :=
       {| gateway_name := "LONGPORT"; quote_ctx := q; trade_ctx := t;
          ticks := ∅; orders := ∅; accounts := ∅; contracts := ∅ |};
     tick_objects := [];
     event_queue := [];
     environ := ∅;
     sdk_calls := [] |}.

Definition fresh_world : World := world_with None None.
Definition connected_world : World :=
  world_with (Some sample_quote_ctx) (Some sample_trade_ctx).

Definition sample_subscribe : SubscribeRequest :=
  {| sub_symbol := "700"; sub_exchange := SEHK |}.

Definition sample_order : OrderRequest :=
  {| req_symbol := "700"; req_exchange := SEHK; req_direction := LONG;
     req_type := LIMIT; req_volume := PyInt 100; req_price := PyFloat 32050%Z |}.

Definition sample_cancel : CancelRequest :=
  {| cancel_orderid := "1001"; cancel_symbol := "700"; cancel_exchange := SEHK |}.

Definition sample_history : HistoryRequest :=
  {| hist_symbol := "700"; hist_exchange := SEHK; hist_start := 1699900000%Z;
     hist_end := 1700100000%Z; hist_interval := DAILY |}.

Definition sample_quote : PushQuote :=
  {| last_done := 32100; pq_volume := 5000; pq_open := 32000; pq_high := 32200;
     pq_low := 31900; prev_close := 31950 |}%Z.

(** An SDK that builds the quote context and refuses the trade context. *)
Definition half_sdk : Sdk :=
  {| Config_from_env := Config_from_env sample_sdk;
     new_QuoteContext := fun _ => Ok sample_quote_ctx;
     new_TradeContext := fun _ => Exc "trade session refused" |}.

(** The connected world after subscribing to 700 on SEHK. *)
Definition subscribed_world : World :=
  (subscribe sample_subscribe 7%Z connected_world).2.

End Samples.


(** * Properties *)

(** ** Facts about [endswith] *)

Lemma endswith_unfold (s suffix : string) :
  endswith s suffix =
    if String.eqb s suffix then true
    else match s with
         | EmptyString => false
         | String _ s' => endswith s' suffix
         end.
Proof. destruct s; reflexivity. Qed.

Lemma endswith_app (p suffix : string) : endswith (p +:+ suffix) suffix = true.
Proof.
  induction p as [|a p IH]; rewrite endswith_unfold.
  - change ("" +:+ suffix) with suffix. by rewrite String.eqb_refl.
  - change (String a p +:+ suffix) with (String a (p +:+ suffix)).
    destruct (String.eqb _ _); [reflexivity | exact IH].
Qed.

Lemma endswith_inv (s suffix : string) :
  endswith s suffix = true -> exists p, s = p +:+ suffix.
Proof.
  induction s as [|a s IH]; rewrite endswith_unfold.
  - destruct (String.eqb "" suffix) eqn:E; [|discriminate].
    intros _. apply String.eqb_eq in E. exists "". by rewrite <- E.
  - destruct (String.eqb (String a s) suffix) eqn:E.
    + intros _. apply String.eqb_eq in E. exists "". by rewrite <- E.
    + intros H. destruct (IH H) as [p ->]. by exists (String a p).
Qed.

Lemma endswith_spec (s suffix : string) :
  endswith s suffix = true <-> exists p, s = p +:+ suffix.
Proof.
  split; [apply endswith_inv | intros [p ->]; apply endswith_app].
Qed.

Example endswith_hk : endswith "700.HK" ".HK" = true /\ endswith "700.HK" ".US" = false
                      /\ endswith "HK" ".HK" = false /\ endswith "" "" = true.
Proof. repeat split. Qed.


Example equals_sign_code : Ascii.nat_of_ascii equals_sign = 61.
Proof. reflexivity. Qed.

Lemma append_length (s t : string) :
  String.length (s +:+ t) = String.length s + String.length t.
Proof. induction s as [|a s IH]; simpl; [reflexivity | by rewrite IH]. Qed.

(** Two suffixes of one string that have the same length are equal. *)
Lemma append_same_suffix (p q a b : string) :
  p +:+ a = q +:+ b -> String.length a = String.length b -> a = b.
Proof.
  revert q. induction p as [|c p IH]; intros [|d q] E L.
  - exact E.
  - change ("" +:+ a) with a in E. subst a.
    change (String d q +:+ b) with (String d (q +:+ b)) in L.
    simpl in L. rewrite append_length in L. lia.
  - change ("" +:+ b) with b in E. subst b.
    change (String c p +:+ a) with (String c (p +:+ a)) in L.
    simpl in L. rewrite append_length in L. lia.
  - change (String c p +:+ a) with (String c (p +:+ a)) in E.
    change (String d q +:+ b) with (String d (q +:+ b)) in E.
    injection E as _ E. exact (IH q E L).
Qed.

Lemma append_nonempty (s t : string) (c : Ascii.ascii) : s +:+ String c t <> "".
Proof. destruct s; discriminate. Qed.

(** C7: the reverse lookup answers SEHK for a symbol that ends in ".HK",
    NYSE for one that ends in ".US", and SEHK, the default, for every other
    symbol. *)
Theorem get_exchange_spec (symbol : string) :
  ((exists ticker, symbol = ticker +:+ ".HK") -> _get_exchange symbol = SEHK) /\
  ((exists ticker, symbol = ticker +:+ ".US") -> _get_exchange symbol = NYSE) /\
  (~ (exists ticker, symbol = ticker +:+ ".HK") ->
   ~ (exists ticker, symbol = ticker +:+ ".US") ->
   _get_exchange symbol = SEHK).
Proof.
  unfold _get_exchange. repeat split.
  - intros Hhk. apply endswith_spec in Hhk. by rewrite Hhk.
  - intros [ticker ->].
    destruct (endswith (ticker +:+ ".US") ".HK") eqn:Ehk.
    + apply endswith_inv in Ehk as [q Eq].
      apply append_same_suffix in Eq; [discriminate | reflexivity].
    + by rewrite endswith_app.
  - intros Hhk Hus.
    destruct (endswith symbol ".HK") eqn:Ehk.
    { exfalso. apply Hhk. by apply endswith_inv. }
    destruct (endswith symbol ".US") eqn:Eus; [|reflexivity].
    exfalso. apply Hus. by apply endswith_inv.
Qed.

Section Properties.
Context `{Numerics}.

(** ** The event queue *)

Lemma emitted_app (w w' : World) (new : list Event) :
  event_queue w' = event_queue w ++ new -> emitted w w' = new.
Proof. intros E. unfold emitted. rewrite E. apply drop_app_length. Qed.

Lemma emitted_nil (w : World) : emitted w w = [].
Proof. apply emitted_app. by rewrite app_nil_r. Qed.

(** ** Running the monad *)

Lemma run_bind {A B} (m : M A) (k : A -> M B) (w : World) :
  (m ≫= k) w =
    match m w with
    | (Ok a, w') => k a w'
    | (Exc e, w') => (Exc e, w')
    end.
Proof. reflexivity. Qed.

Lemma run_try {A} (body : M A) (handler : exn -> M A) (w : World) :
  try_except body handler w =
    match body w with
    | (Ok a, w') => (Ok a, w')
    | (Exc e, w') => handler e w'
    end.
Proof. reflexivity. Qed.

(** ** Preservation through the monad *)

Section Respects.
Context (R : relation World) `{!PreOrder R}.

Lemma respects_ret {A} (a : A) : respects R (mret a).
Proof. intros w. reflexivity. Qed.

Lemma respects_get_world : respects R get_world.
Proof. intros w. reflexivity. Qed.

Lemma respects_raise {A} (e : exn) : respects R (@raise _ A e).
Proof. intros w. reflexivity. Qed.

Lemma respects_bind {A B} (m : M A) (k : A -> M B) :
  respects R m -> (forall a, respects R (k a)) -> respects R (m ≫= k).
Proof.
  intros Hm Hk w. rewrite run_bind. specialize (Hm w).
  destruct (m w) as [[a|e] w1]; simpl in *; [|exact Hm].
  etrans; [exact Hm | apply Hk].
Qed.

Lemma respects_try {A} (body : M A) (handler : exn -> M A) :
  respects R body -> (forall e, respects R (handler e)) ->
  respects R (try_except body handler).
Proof.
  intros Hb Hh w. rewrite run_try. specialize (Hb w).
  destruct (body w) as [[a|e] w1]; simpl in *; [exact Hb|].
  etrans; [exact Hb | apply Hh].
Qed.

Lemma respects_for_each {A} (l : list A) (body : A -> M unit) :
  (forall x, respects R (body x)) -> respects R (for_each l body).
Proof.
  intros Hbody. induction l as [|x l IH]; simpl.
  - apply respects_ret.
  - apply respects_bind; [apply Hbody | intros _; exact IH].
Qed.

Lemma respects_getitem (setting : gmap string string) (k : string) :
  respects R (getitem setting k).
Proof.
  unfold getitem. destruct (setting !! k); [apply respects_ret | apply respects_raise].
Qed.

End Respects.

(** ** The tick cache under the primitive effects *)

#[local] Instance same_ticks_preorder : PreOrder same_ticks.
Proof.
  split.
  - intros w. reflexivity.
  - intros w1 w2 w3. unfold same_ticks. congruence.
Qed.

Lemma same_ticks_sdk_call {A} (c : SdkCall) (answer : result A) :
  respects same_ticks (sdk_call c answer).
Proof. intros w. reflexivity. Qed.

Lemma same_ticks_emit (e : Event) : respects same_ticks (emit e).
Proof. intros w. reflexivity. Qed.

Lemma same_ticks_on_tick (t : tick_ref) : respects same_ticks (on_tick t).
Proof. apply same_ticks_emit. Qed.

Lemma same_ticks_on_order (o : OrderData) : respects same_ticks (on_order o).
Proof. apply same_ticks_emit. Qed.

Lemma same_ticks_on_account (a : AccountData) :
  respects same_ticks (on_account a).
Proof. apply same_ticks_emit. Qed.

Lemma same_ticks_on_position (p : PositionData) :
  respects same_ticks (on_position p).
Proof. apply same_ticks_emit. Qed.

Lemma same_ticks_write_log (text : string) (v : Interpolated) :
  respects same_ticks (write_log text v).
Proof. intros w. reflexivity. Qed.

Lemma same_ticks_setenv (k v : string) : respects same_ticks (setenv k v).
Proof. intros w. unfold setenv. by repeat case_match. Qed.

Lemma same_ticks_set_quote_ctx (q : option QuoteContext) :
  respects same_ticks (set_quote_ctx q).
Proof. intros w. reflexivity. Qed.

Lemma same_ticks_set_trade_ctx (t : option TradeContext) :
  respects same_ticks (set_trade_ctx t).
Proof. intros w. reflexivity. Qed.

Lemma same_ticks_set_order (id : string) (o : OrderData) :
  respects same_ticks (set_order id o).
Proof. intros w. reflexivity. Qed.

Lemma same_ticks_update_tick (r : tick_ref) (f : TickData -> TickData) :
  respects same_ticks (update_tick r f).
Proof. intros w. reflexivity. Qed.

Lemma same_ticks_new_tick (t : TickData) : respects same_ticks (new_tick t).
Proof. intros w. reflexivity. Qed.

Create HintDb ticks discriminated.

#[local] Hint Resolve same_ticks_sdk_call same_ticks_emit
  same_ticks_write_log same_ticks_setenv same_ticks_set_quote_ctx
  same_ticks_set_trade_ctx same_ticks_set_order same_ticks_update_tick
  same_ticks_new_tick same_ticks_on_tick same_ticks_on_order
  same_ticks_on_account same_ticks_on_position : ticks.

(** Walks a method body, leaving the primitive effects to the hints. *)
Ltac walk :=
  repeat first
    [ progress intros
    | progress cbv zeta
    | apply respects_bind; [apply _| |]
    | apply respects_try; [apply _| |]
    | apply respects_for_each; [apply _|]
    | apply respects_ret; apply _
    | apply respects_get_world; apply _
    | apply respects_getitem; apply _
    | solve [auto with ticks]
    | match goal with
      | |- respects _ (match ?x with _ => _ end) => destruct x
      end ].

Lemma connect_same_ticks (setting : gmap string string) (lib : Sdk) :
  respects same_ticks (connect setting lib).
Proof. unfold connect. walk. Qed.

Lemma close_same_ticks : respects same_ticks close.
Proof. unfold close. walk. Qed.

Lemma send_order_same_ticks (req : OrderRequest) (now : datetime) :
  respects same_ticks (send_order req now).
Proof. unfold send_order. walk. Qed.

Lemma cancel_order_same_ticks (req : CancelRequest) :
  respects same_ticks (cancel_order req).
Proof. unfold cancel_order. walk. Qed.

Lemma query_account_same_ticks : respects same_ticks query_account.
Proof. unfold query_account, emit_cash_info. walk. Qed.

Lemma query_position_same_ticks : respects same_ticks query_position.
Proof. unfold query_position, emit_position. walk. Qed.

Lemma query_history_same_ticks (req : HistoryRequest) :
  respects same_ticks (query_history req).
Proof. unfold query_history. walk. Qed.

Lemma on_quote_same_ticks (symbol : string) (event : PushQuote) (now : datetime) :
  respects same_ticks (on_quote symbol event now).
Proof. unfold on_quote. walk. Qed.

(** ** Symbol conversion *)

(** C6: the symbol conversion appends ".HK" for SEHK and ".US" for NYSE and
    returns the symbol unchanged for every other exchange; being a function
    of its two arguments alone it is pure, and it has a value for every
    exchange. *)
Theorem convert_symbol_spec (symbol : string) :
  _convert_symbol symbol SEHK = symbol +:+ ".HK" /\
  _convert_symbol symbol NYSE = symbol +:+ ".US" /\
  (forall exchange, exchange <> SEHK -> exchange <> NYSE ->
     _convert_symbol symbol exchange = symbol) /\
  (forall exchange, exists sdk_symbol, _convert_symbol symbol exchange = sdk_symbol).
Proof.
  repeat split.
  - intros [| |value] Hhk Hus; [congruence | congruence | reflexivity].
  - intros exchange. eexists. reflexivity.
Qed.

(** ** Quote pushes *)

(** C8: a quote pushed for a symbol that is not a key of the tick cache
    makes on_quote return without raising, emits no tick event and leaves
    the tick cache, and the rest of the world, as it was. *)
Theorem on_quote_unsubscribed (w : World) (symbol : string) (event : PushQuote)
    (now : datetime) :
  ticks (self w) !! symbol = None ->
  on_quote symbol event now w = (Ok tt, w) /\
  tick_events (emitted w (on_quote symbol event now w).2) = [] /\
  ticks (self (on_quote symbol event now w).2) = ticks (self w) /\
  tick_objects (on_quote symbol event now w).2 = tick_objects w.
Proof.
  intros Hmiss.
  assert (on_quote symbol event now w = (Ok tt, w)) as E.
  { unfold on_quote. rewrite run_bind. cbn. by rewrite Hmiss. }
  rewrite E. cbn. by rewrite emitted_nil.
Qed.

(** ** Subscription *)

(** A subscription that the SDK rejects ends at the SDK call. *)
Lemma subscribe_rejected (w : World) (req : SubscribeRequest) (now : datetime)
    (ctx : QuoteContext) (e : exn) :
  quote_ctx (self w) = Some ctx ->
  qc_subscribe ctx [_convert_symbol (sub_symbol req) (sub_exchange req)] [Quote]
    = Exc e ->
  subscribe req now w =
    (Exc e, with_call (CallSubscribe
       [_convert_symbol (sub_symbol req) (sub_exchange req)] [Quote]) w).
Proof.
  intros Hctx Hraise. unfold subscribe. rewrite run_bind. cbn. rewrite Hctx.
  cbv zeta. rewrite run_bind. unfold sdk_call. by rewrite Hraise.
Qed.

(** C4: with the quote context initialized, an exception raised by the SDK
    subscription call leaves subscribe as that same exception, and the tick
    cache is as it was: no tick record is created or inserted, and nothing
    is emitted. *)
Theorem subscribe_error_propagates (w : World) (req : SubscribeRequest)
    (now : datetime) (ctx : QuoteContext) (e : exn) :
  quote_ctx (self w) = Some ctx ->
  qc_subscribe ctx [_convert_symbol (sub_symbol req) (sub_exchange req)] [Quote]
    = Exc e ->
  (subscribe req now w).1 = Exc e /\
  ticks (self (subscribe req now w).2) = ticks (self w) /\
  ticks (self (subscribe req now w).2)
    !! _convert_symbol (sub_symbol req) (sub_exchange req)
    = ticks (self w) !! _convert_symbol (sub_symbol req) (sub_exchange req) /\
  tick_objects (subscribe req now w).2 = tick_objects w /\
  emitted w (subscribe req now w).2 = [].
Proof.
  intros Hctx Hraise. rewrite (subscribe_rejected w req now ctx e Hctx Hraise).
  cbn. repeat split; try reflexivity.
  apply emitted_app. by rewrite app_nil_r.
Qed.

(** A subscription that the SDK accepts stores a new tick object and puts
    its reference under the SDK symbol. *)
Lemma subscribe_accepted (w : World) (req : SubscribeRequest) (now : datetime)
    (ctx : QuoteContext) :
  quote_ctx (self w) = Some ctx ->
  qc_subscribe ctx [_convert_symbol (sub_symbol req) (sub_exchange req)] [Quote]
    = Ok tt ->
  (subscribe req now w).1 = Ok tt /\
  ticks (self (subscribe req now w).2) =
    <[_convert_symbol (sub_symbol req) (sub_exchange req) :=
        length (tick_objects w)]> (ticks (self w)) /\
  tick_objects (subscribe req now w).2 =
    tick_objects w ++
      [{| tick_symbol := sub_symbol req;
          tick_exchange := sub_exchange req;
          tick_datetime := now;
          tick_gateway_name := gateway_name (self w);
          tick_volume := PyInt 0;
          tick_last_price := PyInt 0;
          tick_open_price := PyInt 0;
          tick_high_price := PyInt 0;
          tick_low_price := PyInt 0;
          tick_pre_close := PyInt 0 |}].
Proof.
  intros Hctx Hok. unfold subscribe. rewrite run_bind. cbn. rewrite Hctx.
  cbv zeta. rewrite run_bind. unfold sdk_call. rewrite Hok. cbn. auto.
Qed.

(** Whatever the SDK answers, subscribe leaves the tick cache alone or
    inserts one key. *)
Lemma subscribe_ticks (w : World) (req : SubscribeRequest) (now : datetime) :
  ticks (self (subscribe req now w).2) = ticks (self w) \/
  exists r, ticks (self (subscribe req now w).2) =
    <[_convert_symbol (sub_symbol req) (sub_exchange req) := r]> (ticks (self w)).
Proof.
  destruct (quote_ctx (self w)) as [ctx|] eqn:Hctx.
  - destruct (qc_subscribe ctx
      [_convert_symbol (sub_symbol req) (sub_exchange req)] [Quote])
      as [[]|e] eqn:Hans.
    + right. eexists. apply (subscribe_accepted w req now ctx Hctx Hans).
    + left. by rewrite (subscribe_rejected w req now ctx e Hctx Hans).
  - left. unfold subscribe. rewrite run_bind. cbn. by rewrite Hctx.
Qed.

(** ** Order submission *)

(** The order snapshot that send_order builds from a request and the
    SDK's response. *)
Lemma send_order_accepted (w : World) (req : OrderRequest) (now : datetime)
    (ctx : TradeContext) (resp : SubmitOrderResponse) :
  trade_ctx (self w) = Some ctx ->
  tc_submit_order ctx (_convert_symbol (req_symbol req) (req_exchange req))
    (_convert_order_type (req_type req)) (_convert_direction (req_direction req))
    (Decimal_str (req_volume req)) Day (Decimal_str (req_price req)) = Ok resp ->
  exists order,
    (send_order req now w).1 = Ok (vt_orderid order) /\
    orders (self (send_order req now w).2) =
      <[order_id resp := order]> (orders (self w)) /\
    event_queue (send_order req now w).2 = event_queue w ++ [EventOrder order] /\
    order =
      {| order_symbol := req_symbol req;
         order_exchange := req_exchange req;
         orderid := order_id resp;
         order_type := req_type req;
         order_direction := req_direction req;
         order_price := req_price req;
         order_volume := req_volume req;
         order_status := SUBMITTING;
         order_datetime := now;
         order_gateway_name := gateway_name (self w) |}.
Proof.
  intros Hctx Hok. eexists. unfold send_order. rewrite run_bind. cbn.
  rewrite Hctx. cbv zeta. rewrite run_try, run_bind. unfold sdk_call.
  rewrite Hok. cbn. repeat split; reflexivity.
Qed.

Lemma send_order_rejected (w : World) (req : OrderRequest) (now : datetime)
    (ctx : TradeContext) (e : exn) :
  trade_ctx (self w) = Some ctx ->
  tc_submit_order ctx (_convert_symbol (req_symbol req) (req_exchange req))
    (_convert_order_type (req_type req)) (_convert_direction (req_direction req))
    (Decimal_str (req_volume req)) Day (Decimal_str (req_price req)) = Exc e ->
  (send_order req now w).1 = Ok "" /\
  self (send_order req now w).2 = self w /\
  event_queue (send_order req now w).2 =
    event_queue w ++
      [EventLog {| msg := "委托下单失败："; msg_value := ExcValue e;
                   log_gateway_name := gateway_name (self w) |}].
Proof.
  intros Hctx Hraise. unfold send_order. rewrite run_bind. cbn.
  rewrite Hctx. cbv zeta. rewrite run_try, run_bind. unfold sdk_call.
  rewrite Hraise. cbn. repeat split; reflexivity.
Qed.

(** C1: with the trade context initialized, when the SDK accepts the order
    send_order returns the composite identifier, the gateway name joined
    with the broker order id, which is not empty; it records the order
    snapshot under the broker order id and emits exactly one event, an
    order event whose status is SUBMITTING.  When the SDK call raises,
    send_order returns the empty string, emits no order event and leaves
    the order map as it was. *)
Theorem send_order_outcome (w : World) (req : OrderRequest) (now : datetime)
    (ctx : TradeContext) :
  trade_ctx (self w) = Some ctx ->
  match
    tc_submit_order ctx (_convert_symbol (req_symbol req) (req_exchange req))
      (_convert_order_type (req_type req))
      (_convert_direction (req_direction req))
      (Decimal_str (req_volume req)) Day (Decimal_str (req_price req))
  with
  | Ok resp =>
      exists order,
        (send_order req now w).1 = Ok (vt_orderid order) /\
        vt_orderid order = gateway_name (self w) +:+ "." +:+ order_id resp /\
        vt_orderid order <> "" /\
        orders (self (send_order req now w).2) =
          <[order_id resp := order]> (orders (self w)) /\
        emitted w (send_order req now w).2 = [EventOrder order] /\
        order_status order = SUBMITTING /\
        orderid order = order_id resp /\
        order_symbol order = req_symbol req /\
        order_exchange order = req_exchange req /\
        order_price order = req_price req /\
        order_volume order = req_volume req
  | Exc e =>
      (send_order req now w).1 = Ok "" /\
      order_events (emitted w (send_order req now w).2) = [] /\
      orders (self (send_order req now w).2) = orders (self w)
  end.
Proof.
  intros Hctx.
  destruct (tc_submit_order ctx _ _ _ _ _ _) as [resp|e] eqn:Hans.
  - destruct (send_order_accepted w req now ctx resp Hctx Hans)
      as (order & Hret & Hmap & Hev & ->).
    eexists. split; [exact Hret|]. split; [reflexivity|].
    split; [apply append_nonempty|]. split; [exact Hmap|].
    split; [by apply emitted_app|]. repeat split.
  - destruct (send_order_rejected w req now ctx e Hctx Hans)
      as (Hret & Hself & Hev).
    split; [exact Hret|]. split.
    + by rewrite (emitted_app _ _ _ Hev).
    + by rewrite Hself.
Qed.

(** ** Account query *)

Lemma with_events_app (a b : list Event) (w : World) :
  with_events b (with_events a w) = with_events (a ++ b) w.
Proof. unfold with_events. cbn. by rewrite app_assoc. Qed.

Lemma account_events_app (a b : list Event) :
  account_events (a ++ b) = account_events a ++ account_events b.
Proof. apply List.filter_app. Qed.

(** One turn of the loop over the cash entries. *)
Lemma run_emit_cash_info (name : string) (c : CashInfo) (w : World) :
  emit_cash_info name c w =
    (Ok tt,
     with_events
       [EventLog {| msg := "创建资金对象：";
                    msg_value := AccountDataValue
                      {| accountid := currency c;
                         balance := float (withdraw_cash c);
                         frozen := float (frozen_cash c);
                         account_gateway_name := name |};
                    log_gateway_name := gateway_name (self w) |};
        EventAccount
          {| accountid := currency c;
             balance := float (withdraw_cash c);
             frozen := float (frozen_cash c);
             account_gateway_name := name |};
        EventLog {| msg := "资金对象已发送到事件引擎";
                    msg_value := NoValue;
                    log_gateway_name := gateway_name (self w) |}] w).
Proof.
  unfold emit_cash_info, with_events, write_log, on_account, emit, modify,
    get_world, mbind, M_bind. cbn. rewrite <- !app_assoc. reflexivity.
Qed.

(** The loop over the cash entries: one account event per entry, in order. *)
Lemma run_cash_infos (name : string) (l : list CashInfo) (w : World) :
  exists new,
    for_each l (emit_cash_info name) w = (Ok tt, with_events new w) /\
    account_events new =
      map (fun c => EventAccount
             {| accountid := currency c;
                balance := float (withdraw_cash c);
                frozen := float (frozen_cash c);
                account_gateway_name := name |}) l.
Proof.
  revert w. induction l as [|c l IH]; intros w.
  - exists []. split; [|reflexivity]. cbn. unfold with_events.
    rewrite app_nil_r. by destruct w.
  - cbn [for_each]. rewrite run_bind, run_emit_cash_info.
    match goal with
    | |- context [for_each l _ ?w1] => destruct (IH w1) as (new & Hrun & Hev)
    end.
    eexists. split.
    + rewrite Hrun, with_events_app. reflexivity.
    + rewrite account_events_app, Hev. reflexivity.
Qed.

(** What query_account does with a response of at least one account. *)
Lemma query_account_fetched (w : World) (ctx : TradeContext)
    (account : AccountBalance) (rest : list AccountBalance) :
  trade_ctx (self w) = Some ctx ->
  tc_account_balance ctx = Ok (account :: rest) ->
  (query_account w).1 = Ok tt /\
  account_events (emitted w (query_account w).2) =
    map (fun c => EventAccount
           {| accountid := currency c;
              balance := float (withdraw_cash c);
              frozen := float (frozen_cash c);
              account_gateway_name := gateway_name (self w) |})
        (cash_infos account).
Proof.
  intros Hctx Hans.
  unfold query_account, write_log, sdk_call, emit, modify, get_world,
    try_except, mbind, M_bind.
  cbn. rewrite Hctx. cbn. rewrite Hans. cbn.
  match goal with
  | |- context [for_each _ _ ?w1] =>
      destruct (run_cash_infos (gateway_name (self w)) (cash_infos account) w1)
        as (new & Hrun & Hev);
      rewrite Hrun
  end.
  unfold with_events. cbn. split; [reflexivity|].
  rewrite <- !app_assoc. erewrite emitted_app; [|reflexivity].
  cbn. exact Hev.
Qed.

Lemma query_account_not_fetched (w : World) (ctx : TradeContext) :
  trade_ctx (self w) = Some ctx ->
  match tc_account_balance ctx with
  | Ok (_ :: _) => True
  | _ =>
      (query_account w).1 = Ok tt /\
      account_events (emitted w (query_account w).2) = []
  end.
Proof.
  intros Hctx.
  destruct (tc_account_balance ctx) as [[|account rest]|e] eqn:Hans; [|exact I|].
  - unfold query_account, write_log, sdk_call, emit, modify, get_world,
      try_except, mbind, M_bind.
    cbn. rewrite Hctx. cbn. rewrite Hans. cbn. split; [reflexivity|].
    rewrite <- !app_assoc. erewrite emitted_app; [|reflexivity]. reflexivity.
  - unfold query_account, write_log, sdk_call, emit, modify, get_world,
      try_except, mbind, M_bind.
    cbn. rewrite Hctx. cbn. rewrite Hans. cbn. split; [reflexivity|].
    rewrite <- !app_assoc. erewrite emitted_app; [|reflexivity]. reflexivity.
Qed.

(** C2: with the trade context initialized, for a balance response with at
    least one account query_account emits exactly one account event per
    entry of the first account's cash-info list, in order, with the account
    id set to the entry's currency, the balance to its withdraw cash and
    frozen to its frozen cash, both through float(); for a response with no
    account it emits no account event and returns without raising. *)
Theorem query_account_events (w : World) (ctx : TradeContext) :
  trade_ctx (self w) = Some ctx ->
  match tc_account_balance ctx with
  | Ok (account :: _) =>
      (query_account w).1 = Ok tt /\
      account_events (emitted w (query_account w).2) =
        map (fun cash_info => EventAccount
               {| accountid := currency cash_info;
                  balance := float (withdraw_cash cash_info);
                  frozen := float (frozen_cash cash_info);
                  account_gateway_name := gateway_name (self w) |})
            (cash_infos account)
  | Ok [] =>
      (query_account w).1 = Ok tt /\
      account_events (emitted w (query_account w).2) = []
  | Exc _ =>
      (query_account w).1 = Ok tt /\
      account_events (emitted w (query_account w).2) = []
  end.
Proof.
  intros Hctx. pose proof (query_account_not_fetched w ctx Hctx) as Hnone.
  destruct (tc_account_balance ctx) as [[|account rest]|e] eqn:Hans.
  - exact Hnone.
  - exact (query_account_fetched w ctx account rest Hctx Hans).
  - exact Hnone.
Qed.

(** C5, as amended: for a balance response with at least one account,
    query_account emits one account event per cash entry of the first
    account and no other account event: the account events are exactly
    the first account's cash entries, one for one and in order, each with
    the entry's currency, withdraw cash and frozen cash, whatever accounts
    follow the first, which are not iterated. *)
Theorem query_account_first_account_only (w : World) (ctx : TradeContext)
    (account : AccountBalance) (rest : list AccountBalance) :
  trade_ctx (self w) = Some ctx ->
  tc_account_balance ctx = Ok (account :: rest) ->
  account_events (emitted w (query_account w).2) =
    map (fun cash_info => EventAccount
           {| accountid := currency cash_info;
              balance := float (withdraw_cash cash_info);
              frozen := float (frozen_cash cash_info);
              account_gateway_name := gateway_name (self w) |})
        (cash_infos account) /\
  length (account_events (emitted w (query_account w).2)) =
    length (cash_infos account) /\
  List.Forall
    (fun e => exists cash_info,
       In cash_info (cash_infos account) /\
       e = EventAccount
             {| accountid := currency cash_info;
                balance := float (withdraw_cash cash_info);
                frozen := float (frozen_cash cash_info);
                account_gateway_name := gateway_name (self w) |})
    (account_events (emitted w (query_account w).2)).
Proof.
  intros Hctx Hans.
  destruct (query_account_fetched w ctx account rest Hctx Hans) as [_ Hev].
  rewrite Hev. split; [reflexivity|]. split.
  - apply List.length_map.
  - apply List.Forall_forall. intros e Hin.
    apply List.in_map_iff in Hin as (c & <- & Hc). eauto.
Qed.

(** ** History query *)

Lemma convert_bars_from (req : HistoryRequest) (name : string)
    (bars : list Candlestick) (result : list BarData) :
  fold_left (fun result bar => result ++ [bar_data req name bar]) bars result =
    result ++ map (bar_data req name) bars.
Proof.
  revert result. induction bars as [|bar bars IH]; intros result; cbn.
  - by rewrite app_nil_r.
  - rewrite IH, <- app_assoc. reflexivity.
Qed.

(** The conversion loop yields the bars one for one, in order. *)
Lemma convert_bars_map (req : HistoryRequest) (name : string)
    (bars : list Candlestick) :
  convert_bars req name bars = map (bar_data req name) bars.
Proof. unfold convert_bars. by rewrite convert_bars_from. Qed.

Lemma lookup_map {A B} (f : A -> B) (l : list A) (i : nat) (x : A) :
  l !! i = Some x -> map f l !! i = Some (f x).
Proof.
  revert i. induction l as [|y l IH]; intros [|i] Hi; try discriminate.
  - by injection Hi as ->.
  - exact (IH i Hi).
Qed.

Lemma query_history_run (w : World) (req : HistoryRequest) (ctx : QuoteContext) :
  quote_ctx (self w) = Some ctx ->
  (query_history req w).1 =
    match qc_candlesticks ctx
            (_convert_symbol (hist_symbol req) (hist_exchange req))
            (_convert_interval (hist_interval req)) 100 NoAdjust with
    | Ok bars => Ok (convert_bars req (gateway_name (self w)) bars)
    | Exc _ => Ok []
    end.
Proof.
  intros Hctx.
  unfold query_history, write_log, sdk_call, emit, modify, get_world,
    try_except, mbind, M_bind.
  cbn. rewrite Hctx. cbn.
  by destruct (qc_candlesticks ctx _ _ _ _).
Qed.

(** C3: with the quote context initialized, when the SDK candlestick call
    succeeds query_history returns one bar record per candlestick, in the
    SDK's order, whose open, high, low, close and volume are the
    candlestick's values through float(), whose time is the candlestick's
    and whose symbol, exchange and interval are the request's; when the
    call raises, query_history returns the empty list. *)
Theorem query_history_bars (w : World) (req : HistoryRequest) (ctx : QuoteContext) :
  quote_ctx (self w) = Some ctx ->
  match qc_candlesticks ctx
          (_convert_symbol (hist_symbol req) (hist_exchange req))
          (_convert_interval (hist_interval req)) 100 NoAdjust with
  | Ok bars =>
      exists result,
        (query_history req w).1 = Ok result /\
        length result = length bars /\
        forall i bar, bars !! i = Some bar ->
          exists bar_data,
            result !! i = Some bar_data /\
            bar_open_price bar_data = float (cs_open bar) /\
            bar_high_price bar_data = float (cs_high bar) /\
            bar_low_price bar_data = float (cs_low bar) /\
            bar_close_price bar_data = float (cs_close bar) /\
            bar_volume bar_data = float (cs_volume bar) /\
            bar_datetime bar_data = cs_timestamp bar /\
            bar_symbol bar_data = hist_symbol req /\
            bar_exchange bar_data = hist_exchange req /\
            bar_interval bar_data = hist_interval req
  | Exc _ => (query_history req w).1 = Ok []
  end.
Proof.
  intros Hctx. rewrite (query_history_run w req ctx Hctx).
  destruct (qc_candlesticks ctx _ _ _ _) as [bars|e]; [|reflexivity].
  eexists. split; [reflexivity|]. rewrite convert_bars_map. split.
  - apply List.length_map.
  - intros i bar Hi. eexists. split; [exact (lookup_map _ _ _ _ Hi)|].
    repeat split.
Qed.

(** ** Before connecting *)

(** C10: while the quote and trade contexts are both None, every method
    returns without raising and without calling the SDK, and leaves the
    adapter's attributes and its tick objects as they were: subscribe,
    cancel_order and close change nothing at all, send_order returns the
    empty string and changes nothing, query_history returns the empty
    list, and query_history, query_account and query_position emit one log
    line each and no account, position, order or tick event. *)
Theorem disconnected_noop (w : World) :
  quote_ctx (self w) = None ->
  trade_ctx (self w) = None ->
  (forall req now, subscribe req now w = (Ok tt, w)) /\
  (forall req, cancel_order req w = (Ok tt, w)) /\
  (forall req now, send_order req now w = (Ok "", w)) /\
  close w = (Ok tt, w) /\
  (forall req, exists line,
     query_history req w = (Ok [], with_events [EventLog line] w)) /\
  (exists line, query_account w = (Ok tt, with_events [EventLog line] w)) /\
  (exists line, query_position w = (Ok tt, with_events [EventLog line] w)) /\
  (forall line,
     untouched w (with_events [EventLog line] w) /\
     account_events (emitted w (with_events [EventLog line] w)) = [] /\
     position_events (emitted w (with_events [EventLog line] w)) = [] /\
     order_events (emitted w (with_events [EventLog line] w)) = [] /\
     tick_events (emitted w (with_events [EventLog line] w)) = []).
Proof.
  intros Hq Ht. repeat split.
  - intros req now. unfold subscribe. rewrite run_bind. cbn. by rewrite Hq.
  - intros req. unfold cancel_order. rewrite run_bind. cbn. by rewrite Ht.
  - intros req now. unfold send_order. rewrite run_bind. cbn. by rewrite Ht.
  - unfold close, get_world, mbind, M_bind. cbn. rewrite Hq. cbn. by rewrite Ht.
  - intros req. eexists. unfold query_history. rewrite run_bind. cbn.
    rewrite Hq. reflexivity.
  - eexists. unfold query_account. rewrite run_bind. cbn. rewrite Ht.
    reflexivity.
  - eexists. unfold query_position. rewrite run_bind. cbn. rewrite Ht.
    reflexivity.
  - by rewrite (emitted_app w (with_events [EventLog line] w) [EventLog line]).
  - by rewrite (emitted_app w (with_events [EventLog line] w) [EventLog line]).
  - by rewrite (emitted_app w (with_events [EventLog line] w) [EventLog line]).
  - by rewrite (emitted_app w (with_events [EventLog line] w) [EventLog line]).
Qed.

(** ** The tick cache over the adapter's lifetime *)

(** No operation but subscribe touches the tick cache, and subscribe only
    inserts. *)
Lemma step_ticks (w : World) (op : Op) :
  ticks (self (step w op)) = ticks (self w) \/
  exists symbol r, ticks (self (step w op)) = <[symbol := r]> (ticks (self w)).
Proof.
  destruct op; cbn [step].
  - left. apply connect_same_ticks.
  - left. apply close_same_ticks.
  - destruct (subscribe_ticks w req now) as [E|[r E]]; eauto.
  - left. apply send_order_same_ticks.
  - left. apply cancel_order_same_ticks.
  - left. apply query_account_same_ticks.
  - left. apply query_position_same_ticks.
  - left. apply query_history_same_ticks.
  - left. apply on_quote_same_ticks.
Qed.

Lemma step_keys (w : World) (op : Op) :
  dom (ticks (self w)) ⊆ dom (ticks (self (step w op))).
Proof.
  destruct (step_ticks w op) as [-> | (symbol & r & ->)]; [done|].
  rewrite dom_insert_L. set_solver.
Qed.

Lemma run_keys (ops : list Op) (w : World) :
  dom (ticks (self w)) ⊆ dom (ticks (self (run ops w))).
Proof.
  revert w. induction ops as [|op ops IH]; intros w; cbn; [done|].
  etrans; [apply (step_keys w op) | apply IH].
Qed.

Lemma on_quote_cached (w : World) (symbol : string) (event : PushQuote)
    (now : datetime) (r : tick_ref) :
  ticks (self w) !! symbol = Some r ->
  on_quote symbol event now w =
    (Ok tt,
     with_events [EventTick r]
       {| self := self w;
          tick_objects := alter (apply_quote event now) r (tick_objects w);
          event_queue := event_queue w;
          environ := environ w;
          sdk_calls := sdk_calls w |}).
Proof.
  intros Hhit. unfold on_quote. rewrite run_bind. cbn. by rewrite Hhit.
Qed.

(** C9: no operation removes a key from the tick cache.  Over every
    sequence of operations the set of keys only grows; an accepted
    subscribe inserts or replaces the entry of its SDK symbol with a
    reference to a new tick object; on_quote leaves the cache holding the
    same references and changes the tick object behind the reference in
    place; and the key of an accepted subscribe stays in the cache through
    every later sequence of operations. *)
Theorem tick_cache_only_grows :
  (forall ops w, dom (ticks (self w)) ⊆ dom (ticks (self (run ops w)))) /\
  (forall w req now ctx,
     quote_ctx (self w) = Some ctx ->
     qc_subscribe ctx
       [_convert_symbol (sub_symbol req) (sub_exchange req)] [Quote] = Ok tt ->
     ticks (self (subscribe req now w).2) =
       <[_convert_symbol (sub_symbol req) (sub_exchange req) :=
           length (tick_objects w)]> (ticks (self w)) /\
     exists tick,
       tick_objects (subscribe req now w).2 !! length (tick_objects w)
         = Some tick /\
       tick_symbol tick = sub_symbol req /\
       tick_exchange tick = sub_exchange req) /\
  (forall w symbol event now,
     ticks (self (on_quote symbol event now w).2) = ticks (self w) /\
     length (tick_objects (on_quote symbol event now w).2)
       = length (tick_objects w) /\
     forall r, ticks (self w) !! symbol = Some r ->
       tick_objects (on_quote symbol event now w).2
         = alter (apply_quote event now) r (tick_objects w) /\
       emitted w (on_quote symbol event now w).2 = [EventTick r]) /\
  (forall w req now ctx ops,
     quote_ctx (self w) = Some ctx ->
     qc_subscribe ctx
       [_convert_symbol (sub_symbol req) (sub_exchange req)] [Quote] = Ok tt ->
     _convert_symbol (sub_symbol req) (sub_exchange req)
       ∈ dom (ticks (self (run ops (subscribe req now w).2)))).
Proof.
  split; [exact run_keys|]. split; [|split].
  - intros w req now ctx Hctx Hok.
    destruct (subscribe_accepted w req now ctx Hctx Hok) as (_ & Hticks & Hobjs).
    split; [exact Hticks|]. rewrite Hobjs. eexists. split.
    + rewrite lookup_app_r, Nat.sub_diag; [reflexivity | lia].
    + split; reflexivity.
  - intros w symbol event now. split; [apply on_quote_same_ticks|].
    destruct (ticks (self w) !! symbol) as [r|] eqn:Hlook.
    + rewrite (on_quote_cached w symbol event now r Hlook). cbn.
      split; [apply length_alter|]. intros r' [= <-]. split; [reflexivity|].
      by apply emitted_app.
    + assert (on_quote symbol event now w = (Ok tt, w)) as ->.
      { unfold on_quote. rewrite run_bind. cbn. by rewrite Hlook. }
      split; [reflexivity | discriminate].
  - intros w req now ctx ops Hctx Hok.
    apply (run_keys ops (subscribe req now w).2).
    destruct (subscribe_accepted w req now ctx Hctx Hok) as (_ & -> & _).
    rewrite dom_insert_L. set_solver.
Qed.

(** ** Frames: what each method leaves alone *)

#[local] Instance same_adapter_preorder : PreOrder same_adapter.
Proof.
  split.
  - intros w. repeat split.
  - intros w1 w2 w3 (?&?&?) (?&?&?). repeat split; congruence.
Qed.

#[local] Instance same_identity_preorder : PreOrder same_identity.
Proof.
  split.
  - intros w. repeat split.
  - intros w1 w2 w3 (?&?&?) (?&?&?). repeat split; congruence.
Qed.

#[local] Instance same_contexts_preorder : PreOrder same_contexts.
Proof.
  split.
  - intros w. repeat split.
  - intros w1 w2 w3 (?&?) (?&?). repeat split; congruence.
Qed.

#[local] Instance same_orders_preorder : PreOrder same_orders.
Proof.
  split.
  - intros w. reflexivity.
  - intros w1 w2 w3. unfold same_orders. congruence.
Qed.

#[local] Instance same_tick_store_preorder : PreOrder same_tick_store.
Proof.
  split.
  - intros w. repeat split.
  - intros w1 w2 w3 (?&?) (?&?). repeat split; congruence.
Qed.

(** Walks a method body for any of the frames above: a primitive effect
    keeps a frame when the framed fields are the same terms after it. *)
Ltac frame :=
  repeat first
    [ progress intros
    | progress cbv zeta
    | apply respects_bind; [apply _| |]
    | apply respects_try; [apply _| |]
    | apply respects_for_each; [apply _|]
    | apply respects_ret; apply _
    | apply respects_get_world; apply _
    | apply respects_getitem; apply _
    | match goal with
      | |- respects _ (match ?x with _ => _ end) => destruct x
      end
    | solve [intros ?; repeat split]
    | solve [intros ?; unfold setenv; repeat case_match; repeat split] ].

Lemma connect_same_identity (setting : gmap string string) (lib : Sdk) :
  respects same_identity (connect setting lib).
Proof. unfold connect. frame. Qed.

Lemma close_same_identity : respects same_identity close.
Proof. unfold close. frame. Qed.

Lemma subscribe_same_identity (req : SubscribeRequest) (now : datetime) :
  respects same_identity (subscribe req now).
Proof. unfold subscribe. frame. Qed.

Lemma send_order_same_identity (req : OrderRequest) (now : datetime) :
  respects same_identity (send_order req now).
Proof. unfold send_order. frame. Qed.

Lemma cancel_order_same_adapter (req : CancelRequest) :
  respects same_adapter (cancel_order req).
Proof. unfold cancel_order. frame. Qed.

Lemma query_account_same_adapter : respects same_adapter query_account.
Proof. unfold query_account, emit_cash_info. frame. Qed.

Lemma query_position_same_adapter : respects same_adapter query_position.
Proof. unfold query_position, emit_position. frame. Qed.

Lemma query_history_same_adapter (req : HistoryRequest) :
  respects same_adapter (query_history req).
Proof. unfold query_history. frame. Qed.

Lemma on_quote_same_identity (symbol : string) (event : PushQuote)
    (now : datetime) :
  respects same_identity (on_quote symbol event now).
Proof. unfold on_quote. frame. Qed.

Lemma close_same_adapter : respects same_adapter close.
Proof. unfold close. frame. Qed.

Lemma subscribe_same_contexts (req : SubscribeRequest) (now : datetime) :
  respects same_contexts (subscribe req now).
Proof. unfold subscribe. frame. Qed.

Lemma send_order_same_contexts (req : OrderRequest) (now : datetime) :
  respects same_contexts (send_order req now).
Proof. unfold send_order. frame. Qed.

Lemma on_quote_same_contexts (symbol : string) (event : PushQuote)
    (now : datetime) :
  respects same_contexts (on_quote symbol event now).
Proof. unfold on_quote. frame. Qed.

Lemma connect_same_orders (setting : gmap string string) (lib : Sdk) :
  respects same_orders (connect setting lib).
Proof. unfold connect. frame. Qed.

Lemma subscribe_same_orders (req : SubscribeRequest) (now : datetime) :
  respects same_orders (subscribe req now).
Proof. unfold subscribe. frame. Qed.

Lemma on_quote_same_orders (symbol : string) (event : PushQuote)
    (now : datetime) :
  respects same_orders (on_quote symbol event now).
Proof. unfold on_quote. frame. Qed.

Lemma connect_same_tick_store (setting : gmap string string) (lib : Sdk) :
  respects same_tick_store (connect setting lib).
Proof. unfold connect. frame. Qed.

Lemma send_order_same_tick_store (req : OrderRequest) (now : datetime) :
  respects same_tick_store (send_order req now).
Proof. unfold send_order. frame. Qed.

Lemma same_adapter_identity (w w' : World) :
  same_adapter w w' -> same_identity w w'.
Proof. intros (E & _ & _). unfold same_identity. by rewrite E. Qed.

Lemma same_adapter_contexts (w w' : World) :
  same_adapter w w' -> same_contexts w w'.
Proof. intros (E & _ & _). unfold same_contexts. by rewrite E. Qed.

Lemma same_adapter_orders (w w' : World) :
  same_adapter w w' -> same_orders w w'.
Proof. intros (E & _ & _). unfold same_orders. by rewrite E. Qed.

Lemma same_adapter_tick_store (w w' : World) :
  same_adapter w w' -> same_tick_store w w'.
Proof. intros (E & E' & _). unfold same_tick_store. by rewrite E, E'. Qed.

(** ** Attributes over any sequence of operations *)

Lemma run_cons (op : Op) (ops : list Op) (w : World) :
  run (op :: ops) w = run ops (step w op).
Proof. reflexivity. Qed.

Lemma step_same_identity (w : World) (op : Op) : same_identity w (step w op).
Proof.
  destruct op; cbn [step].
  - apply connect_same_identity.
  - apply close_same_identity.
  - apply subscribe_same_identity.
  - apply send_order_same_identity.
  - apply same_adapter_identity, cancel_order_same_adapter.
  - apply same_adapter_identity, query_account_same_adapter.
  - apply same_adapter_identity, query_position_same_adapter.
  - apply same_adapter_identity, query_history_same_adapter.
  - apply on_quote_same_identity.
Qed.

(** X1: over every sequence of operations the gateway name and the
    [accounts] and [contracts] dictionaries stay as they were: no method
    writes them, so an adapter made by [__init__] keeps both dictionaries
    empty for its whole life. *)
Theorem identity_never_changes (ops : list Op) (w : World) :
  gateway_name (self (run ops w)) = gateway_name (self w) /\
  accounts (self (run ops w)) = accounts (self w) /\
  contracts (self (run ops w)) = contracts (self w).
Proof.
  revert w. induction ops as [|op ops IH]; intros w; [repeat split|].
  rewrite run_cons.
  destruct (IH (step w op)) as (Hn & Ha & Hc).
  destruct (step_same_identity w op) as (Hn' & Ha' & Hc').
  repeat split; congruence.
Qed.

Lemma step_same_contexts (w : World) (op : Op) :
  is_connect op = false -> same_contexts w (step w op).
Proof.
  destruct op; cbn [step is_connect]; intros Hop; try discriminate.
  - apply same_adapter_contexts, close_same_adapter.
  - apply subscribe_same_contexts.
  - apply send_order_same_contexts.
  - apply same_adapter_contexts, cancel_order_same_adapter.
  - apply same_adapter_contexts, query_account_same_adapter.
  - apply same_adapter_contexts, query_position_same_adapter.
  - apply same_adapter_contexts, query_history_same_adapter.
  - apply on_quote_same_contexts.
Qed.

(** X2: only connect assigns the contexts.  Over a sequence of operations
    without a connect both contexts stay what they were; in particular
    close does not set them back to None, so after a close the guards of
    the other methods still let calls through to the closed contexts. *)
Theorem contexts_change_only_by_connect (ops : list Op) (w : World) :
  forallb (fun op => negb (is_connect op)) ops = true ->
  quote_ctx (self (run ops w)) = quote_ctx (self w) /\
  trade_ctx (self (run ops w)) = trade_ctx (self w).
Proof.
  revert w. induction ops as [|op ops IH]; intros w; [by split|].
  rewrite run_cons. cbn [forallb].
  intros [Hop Hops]%andb_prop. apply negb_true_iff in Hop.
  destruct (IH (step w op) Hops) as (Hq & Ht).
  destruct (step_same_contexts w op Hop) as (Hq' & Ht').
  split; congruence.
Qed.

(** ** The order map over any sequence of operations *)

Lemma send_order_disconnected (w : World) (req : OrderRequest) (now : datetime) :
  trade_ctx (self w) = None -> send_order req now w = (Ok "", w).
Proof.
  intros Ht. unfold send_order. rewrite run_bind. cbn. by rewrite Ht.
Qed.

(** What send_order does to the order map, whatever the SDK answers. *)
Lemma send_order_orders (w : World) (req : OrderRequest) (now : datetime) :
  orders (self (send_order req now w).2) = orders (self w) \/
  exists id o,
    orders (self (send_order req now w).2) = <[id := o]> (orders (self w)) /\
    orderid o = id /\
    order_status o = SUBMITTING /\
    order_gateway_name o = gateway_name (self w).
Proof.
  destruct (trade_ctx (self w)) as [ctx|] eqn:Hctx.
  - destruct (tc_submit_order ctx
      (_convert_symbol (req_symbol req) (req_exchange req))
      (_convert_order_type (req_type req))
      (_convert_direction (req_direction req))
      (Decimal_str (req_volume req)) Day (Decimal_str (req_price req)))
      as [resp|e] eqn:Hans.
    + right.
      destruct (send_order_accepted w req now ctx resp Hctx Hans)
        as (order & _ & Hmap & _ & ->).
      eexists _, _. split; [exact Hmap|]. repeat split.
    + left.
      destruct (send_order_rejected w req now ctx e Hctx Hans) as (_ & -> & _).
      reflexivity.
  - left. by rewrite (send_order_disconnected w req now Hctx).
Qed.

Lemma step_same_orders (w : World) (op : Op) :
  is_send_order op = false -> same_orders w (step w op).
Proof.
  destruct op; cbn [step is_send_order]; intros Hop; try discriminate.
  - apply connect_same_orders.
  - apply same_adapter_orders, close_same_adapter.
  - apply subscribe_same_orders.
  - apply same_adapter_orders, cancel_order_same_adapter.
  - apply same_adapter_orders, query_account_same_adapter.
  - apply same_adapter_orders, query_position_same_adapter.
  - apply same_adapter_orders, query_history_same_adapter.
  - apply on_quote_same_orders.
Qed.

Lemma step_orders (w : World) (op : Op) :
  orders (self (step w op)) = orders (self w) \/
  exists id o,
    orders (self (step w op)) = <[id := o]> (orders (self w)) /\
    orderid o = id /\
    order_status o = SUBMITTING /\
    order_gateway_name o = gateway_name (self w).
Proof.
  destruct (is_send_order op) eqn:Hop.
  - destruct op; try discriminate. cbn [step]. apply send_order_orders.
  - left. apply (step_same_orders w op Hop).
Qed.

Lemma step_orders_as_submitted (w : World) (op : Op) :
  orders_as_submitted w -> orders_as_submitted (step w op).
Proof.
  intros Hinv id o Hlook.
  destruct (step_same_identity w op) as (Hname & _).
  rewrite Hname.
  destruct (step_orders w op) as [E | (id' & o' & E & Hid & Hst & Hgw)];
    rewrite E in Hlook.
  - exact (Hinv id o Hlook).
  - destruct (decide (id' = id)) as [->|Hne].
    + rewrite lookup_insert_eq in Hlook. injection Hlook as <-. auto.
    + rewrite lookup_insert_ne in Hlook by exact Hne. exact (Hinv id o Hlook).
Qed.

(** X3: the order map is written by send_order alone, and only by
    insertion.  Over every sequence of operations its keys only grow
    (cancel_order removes nothing); every stored order keeps the shape it
    was stored with, under its own broker id, with status SUBMITTING and
    this gateway's name, since nothing ever updates a stored order; and a
    sequence without a send_order leaves the map as it was. *)
Theorem orders_only_grow (ops : list Op) (w : World) :
  dom (orders (self w)) ⊆ dom (orders (self (run ops w))) /\
  (orders_as_submitted w -> orders_as_submitted (run ops w)) /\
  (forallb (fun op => negb (is_send_order op)) ops = true ->
   orders (self (run ops w)) = orders (self w)).
Proof.
  revert w. induction ops as [|op ops IH]; intros w.
  { split; [done|]. split; [intros Hw; exact Hw | reflexivity]. }
  rewrite run_cons. cbn [forallb].
  destruct (IH (step w op)) as (Hdom & Hinv & Hsame).
  split; [|split].
  - etrans; [|exact Hdom].
    destruct (step_orders w op) as [-> | (id & o & -> & _)]; [done|].
    rewrite dom_insert_L. apply union_subseteq_r.
  - intros Hw. apply Hinv, step_orders_as_submitted, Hw.
  - intros [Hop Hops]%andb_prop. apply negb_true_iff in Hop.
    rewrite (Hsame Hops). apply (step_same_orders w op Hop).
Qed.

(** ** The tick store over any sequence of operations *)

Lemma subscribe_disconnected (w : World) (req : SubscribeRequest)
    (now : datetime) :
  quote_ctx (self w) = None -> subscribe req now w = (Ok tt, w).
Proof.
  intros Hq. unfold subscribe. rewrite run_bind. cbn. by rewrite Hq.
Qed.

Lemma on_quote_missed (w : World) (symbol : string) (event : PushQuote)
    (now : datetime) :
  ticks (self w) !! symbol = None -> on_quote symbol event now w = (Ok tt, w).
Proof.
  intros Hmiss. unfold on_quote. rewrite run_bind. cbn. by rewrite Hmiss.
Qed.

(** What subscribe does to the cache and to the store of tick objects. *)
Lemma subscribe_store (w : World) (req : SubscribeRequest) (now : datetime) :
  same_tick_store w (subscribe req now w).2 \/
  exists tick,
    ticks (self (subscribe req now w).2) =
      <[_convert_symbol (sub_symbol req) (sub_exchange req) :=
          length (tick_objects w)]> (ticks (self w)) /\
    tick_objects (subscribe req now w).2 = tick_objects w ++ [tick].
Proof.
  destruct (quote_ctx (self w)) as [ctx|] eqn:Hctx.
  - destruct (qc_subscribe ctx
      [_convert_symbol (sub_symbol req) (sub_exchange req)] [Quote])
      as [[]|e] eqn:Hans.
    + right. eexists.
      exact (proj2 (subscribe_accepted w req now ctx Hctx Hans)).
    + left. by rewrite (subscribe_rejected w req now ctx e Hctx Hans).
  - left. by rewrite (subscribe_disconnected w req now Hctx).
Qed.

Lemma on_quote_store (w : World) (symbol : string) (event : PushQuote)
    (now : datetime) :
  ticks (self (on_quote symbol event now w).2) = ticks (self w) /\
  length (tick_objects (on_quote symbol event now w).2)
    = length (tick_objects w).
Proof.
  destruct (ticks (self w) !! symbol) as [r|] eqn:Hlook.
  - rewrite (on_quote_cached w symbol event now r Hlook). cbn.
    split; [reflexivity | apply length_alter].
  - by rewrite (on_quote_missed w symbol event now Hlook).
Qed.

Lemma step_same_tick_store (w : World) (op : Op) :
  match op with
  | OpSubscribe _ _ | OpOnQuote _ _ _ => True
  | _ => same_tick_store w (step w op)
  end.
Proof.
  destruct op; cbn [step]; try exact I.
  - apply connect_same_tick_store.
  - apply same_adapter_tick_store, close_same_adapter.
  - apply send_order_same_tick_store.
  - apply same_adapter_tick_store, cancel_order_same_adapter.
  - apply same_adapter_tick_store, query_account_same_adapter.
  - apply same_adapter_tick_store, query_position_same_adapter.
  - apply same_adapter_tick_store, query_history_same_adapter.
Qed.

Lemma step_ticks_stored (w : World) (op : Op) :
  ticks_stored w ->
  ticks_stored (step w op) /\
  length (tick_objects w) <= length (tick_objects (step w op)).
Proof.
  intros Hw.
  assert (forall w', same_tick_store w w' ->
            ticks_stored w' /\ length (tick_objects w) <= length (tick_objects w'))
    as Hsame.
  { intros w' (Et & Eo). split; [|by rewrite Eo].
    intros symbol r. rewrite Et, Eo. apply Hw. }
  pose proof (step_same_tick_store w op) as Hop.
  destruct op; cbn [step] in *; try (apply Hsame, Hop).
  - destruct (subscribe_store w req now) as [E | (tick & Et & Eo)];
      [exact (Hsame _ E)|].
    split; [|rewrite Eo, length_app; lia].
    intros symbol r. rewrite Et, Eo, length_app. cbn.
    destruct (decide (_convert_symbol (sub_symbol req) (sub_exchange req)
                      = symbol)) as [->|Hne].
    + rewrite lookup_insert_eq. intros [= <-]. lia.
    + rewrite lookup_insert_ne by exact Hne. intros Hr.
      specialize (Hw symbol r Hr). lia.
  - destruct (on_quote_store w symbol event now) as (Et & El).
    split; [|by rewrite El].
    intros s r. rewrite Et, El. apply Hw.
Qed.

(** ** Connecting *)

(** Unfolds the monad in a method body, down to matches on what the
    setting, the adapter and the SDK answer. *)
Ltac run_method :=
  unfold getitem, setenv, set_quote_ctx, set_trade_ctx, write_log, sdk_call,
    on_position, on_account, on_order, on_tick, emit, modify, get_world, raise,
    try_except, mbind, M_bind, mret, M_ret, with_self;
  cbn -[insert lookup].

(** Runs a method body held in [E] one effect at a time, down to the
    next match on what the setting or the SDK answers. *)
Ltac run_in E :=
  repeat (progress (
    rewrite ?run_try, ?run_bind in E;
    unfold getitem, setenv, equals_sign, set_quote_ctx, set_trade_ctx,
      write_log, sdk_call, emit, modify, get_world, raise, with_self in E;
    cbn -[insert lookup mbind try_except] in E)).

(** X5: with the three settings present and free of NUL bytes, and every
    SDK step succeeding, connect writes the three environment variables,
    builds the configuration from the environment, assigns both contexts,
    registers the quote callback, in that order and with no other SDK
    call, and emits the success log line as its only event. *)
Theorem connect_succeeds (w : World) (setting : gmap string string) (lib : Sdk)
    (key secret token : string) (config : Config) (q : QuoteContext)
    (t : TradeContext) :
  setting !! "app_key" = Some key ->
  setting !! "app_secret" = Some secret ->
  setting !! "access_token" = Some token ->
  has_byte Ascii.zero key = false ->
  has_byte Ascii.zero secret = false ->
  has_byte Ascii.zero token = false ->
  Config_from_env lib
    (<["LONGPORT_ACCESS_TOKEN" := token]>
       (<["LONGPORT_APP_SECRET" := secret]>
          (<["LONGPORT_APP_KEY" := key]> (environ w)))) = Ok config ->
  new_QuoteContext lib config = Ok q ->
  new_TradeContext lib config = Ok t ->
  qc_set_on_quote q = Ok tt ->
  (connect setting lib w).1 = Ok tt /\
  quote_ctx (self (connect setting lib w).2) = Some q /\
  trade_ctx (self (connect setting lib w).2) = Some t /\
  environ (connect setting lib w).2 =
    <["LONGPORT_ACCESS_TOKEN" := token]>
      (<["LONGPORT_APP_SECRET" := secret]>
         (<["LONGPORT_APP_KEY" := key]> (environ w))) /\
  sdk_calls (connect setting lib w).2 =
    sdk_calls w ++ [CallConfigFromEnv; CallQuoteContext config;
                    CallTradeContext config; CallSetOnQuote] /\
  emitted w (connect setting lib w).2 =
    [EventLog {| msg := "长桥接口连接成功"; msg_value := NoValue;
                 log_gateway_name := gateway_name (self w) |}].
Proof.
  intros Hk Hs Ht Hnk Hns Hnt Hcfg Hq Htc Hcb.
  destruct (connect setting lib w) as [res w'] eqn:E.
  unfold connect in E. run_in E.
  rewrite Hk in E. run_in E. rewrite Hnk in E. run_in E.
  rewrite Hs in E. run_in E. rewrite Hns in E. run_in E.
  rewrite Ht in E. run_in E. rewrite Hnt in E. run_in E.
  rewrite Hcfg in E. run_in E.
  rewrite Hq in E. run_in E. rewrite Htc in E. run_in E.
  rewrite Hcb in E. run_in E.
  injection E as <- <-. cbn -[insert]. repeat split.
  - by rewrite <- !app_assoc.
  - by apply emitted_app.
Qed.

(** X6: connect never raises and never reports through its result:
    whatever the setting holds and whatever the SDK answers it returns
    normally and emits exactly one event, a log line. *)
Theorem connect_one_log (w : World) (setting : gmap string string) (lib : Sdk) :
  (connect setting lib w).1 = Ok tt /\
  exists line, emitted w (connect setting lib w).2 = [EventLog line].
Proof.
  destruct (connect setting lib w) as [res w'] eqn:E.
  unfold connect in E. run_in E.
  destruct (setting !! "app_key") as [key|]; run_in E;
    [|injection E as <- <-; split; [reflexivity | eexists; by apply emitted_app]].
  destruct (has_byte Ascii.zero key); run_in E;
    [injection E as <- <-; split; [reflexivity | eexists; by apply emitted_app]|].
  destruct (setting !! "app_secret") as [secret|]; run_in E;
    [|injection E as <- <-; split; [reflexivity | eexists; by apply emitted_app]].
  destruct (has_byte Ascii.zero secret); run_in E;
    [injection E as <- <-; split; [reflexivity | eexists; by apply emitted_app]|].
  destruct (setting !! "access_token") as [token|]; run_in E;
    [|injection E as <- <-; split; [reflexivity | eexists; by apply emitted_app]].
  destruct (has_byte Ascii.zero token); run_in E;
    [injection E as <- <-; split; [reflexivity | eexists; by apply emitted_app]|].
  destruct (Config_from_env lib _) as [config|e]; run_in E;
    [|injection E as <- <-; split; [reflexivity | eexists; by apply emitted_app]].
  destruct (new_QuoteContext lib config) as [q|e]; run_in E;
    [|injection E as <- <-; split; [reflexivity | eexists; by apply emitted_app]].
  destruct (new_TradeContext lib config) as [t|e]; run_in E;
    [|injection E as <- <-; split; [reflexivity | eexists; by apply emitted_app]].
  destruct (qc_set_on_quote q) as [[]|e]; run_in E;
    injection E as <- <-; split; try reflexivity; eexists; by apply emitted_app.
Qed.


(** X8: connect assigns each context as soon as it is built, so a failure
    after that leaves the adapter half connected.  With the three settings
    present and free of NUL bytes, once the quote context is built it is
    assigned whatever follows; the trade context is assigned exactly when
    it is built; and the log line is the success line only when the trade
    context is built and the callback is registered: if registering
    raises, both contexts are in place although the log says the
    connection failed. *)
Theorem connect_assigns_before_failing (w : World)
    (setting : gmap string string) (lib : Sdk) (key secret token : string)
    (config : Config) (q : QuoteContext) :
  setting !! "app_key" = Some key ->
  setting !! "app_secret" = Some secret ->
  setting !! "access_token" = Some token ->
  has_byte Ascii.zero key = false ->
  has_byte Ascii.zero secret = false ->
  has_byte Ascii.zero token = false ->
  Config_from_env lib
    (<["LONGPORT_ACCESS_TOKEN" := token]>
       (<["LONGPORT_APP_SECRET" := secret]>
          (<["LONGPORT_APP_KEY" := key]> (environ w)))) = Ok config ->
  new_QuoteContext lib config = Ok q ->
  quote_ctx (self (connect setting lib w).2) = Some q /\
  trade_ctx (self (connect setting lib w).2) =
    match new_TradeContext lib config with
    | Ok t => Some t
    | Exc _ => trade_ctx (self w)
    end /\
  emitted w (connect setting lib w).2 =
    [EventLog
       match new_TradeContext lib config, qc_set_on_quote q with
       | Ok _, Ok _ =>
           {| msg := "长桥接口连接成功"; msg_value := NoValue;
              log_gateway_name := gateway_name (self w) |}
       | Exc e, _ | Ok _, Exc e =>
           {| msg := "长桥接口连接失败："; msg_value := ExcValue e;
              log_gateway_name := gateway_name (self w) |}
       end].
Proof.
  intros Hk Hs Ht Hnk Hns Hnt Hcfg Hq.
  destruct (connect setting lib w) as [res w'] eqn:E.
  unfold connect in E. run_in E.
  rewrite Hk in E. run_in E. rewrite Hnk in E. run_in E.
  rewrite Hs in E. run_in E. rewrite Hns in E. run_in E.
  rewrite Ht in E. run_in E. rewrite Hnt in E. run_in E.
  rewrite Hcfg in E. run_in E.
  rewrite Hq in E. run_in E.
  destruct (new_TradeContext lib config) as [t|e]; run_in E.
  - destruct (qc_set_on_quote q) as [[]|e]; run_in E;
      injection E as <- <-; repeat split; by apply emitted_app.
  - injection E as <- <-. repeat split. by apply emitted_app.
Qed.

(** ** Closing *)

(** X9: close changes nothing in the adapter and emits nothing: the
    contexts stay assigned after it, whether or not the SDK's close
    raised. *)
Theorem close_keeps_contexts (w : World) :
  self (close w).2 = self w /\
  tick_objects (close w).2 = tick_objects w /\
  event_queue (close w).2 = event_queue w.
Proof.
  unfold close. run_method.
  destruct (quote_ctx (self w)) as [q|]; cbn.
  - destruct (qc_close q) as [[]|e]; cbn; [|by repeat split].
    destruct (trade_ctx (self w)) as [t|]; by repeat split.
  - destruct (trade_ctx (self w)) as [t|]; by repeat split.
Qed.

(** X10: with both contexts assigned, close closes the quote context
    first and the trade context second; an exception from either is not
    caught, and when closing the quote context raises, the trade context
    is never closed. *)
Theorem close_stops_at_first_failure (w : World) (q : QuoteContext)
    (t : TradeContext) :
  quote_ctx (self w) = Some q ->
  trade_ctx (self w) = Some t ->
  (close w).1 =
    match qc_close q with
    | Ok _ => tc_close t
    | Exc e => Exc e
    end /\
  sdk_calls (close w).2 =
    sdk_calls w ++
      match qc_close q with
      | Ok _ => [CallQuoteClose; CallTradeClose]
      | Exc _ => [CallQuoteClose]
      end.
Proof.
  intros Hq Ht. unfold close. run_method. rewrite Hq. cbn.
  destruct (qc_close q) as [[]|e]; cbn; [|by split].
  rewrite Ht. cbn. split; [reflexivity | by rewrite <- app_assoc].
Qed.

(** ** Cancelling *)

(** X11: with the trade context assigned, cancel_order forwards the
    request's order id to the SDK in exactly one call and returns
    normally whatever the SDK answers; it leaves the adapter's attributes
    alone, so the order stays in the order map with the status it was
    stored with, and it emits nothing on success and one log line with
    the exception on failure. *)
Theorem cancel_order_forwards (w : World) (req : CancelRequest)
    (ctx : TradeContext) :
  trade_ctx (self w) = Some ctx ->
  (cancel_order req w).1 = Ok tt /\
  self (cancel_order req w).2 = self w /\
  sdk_calls (cancel_order req w).2 =
    sdk_calls w ++ [CallCancelOrder (cancel_orderid req)] /\
  emitted w (cancel_order req w).2 =
    match tc_cancel_order ctx (cancel_orderid req) with
    | Ok _ => []
    | Exc e =>
        [EventLog {| msg := "委托撤单失败："; msg_value := ExcValue e;
                     log_gateway_name := gateway_name (self w) |}]
    end.
Proof.
  intros Hctx. unfold cancel_order. run_method. rewrite Hctx. cbn.
  destruct (tc_cancel_order ctx (cancel_orderid req)) as [[]|e]; cbn;
    repeat split.
  - apply emitted_app. cbn. by rewrite app_nil_r.
  - by apply emitted_app.
Qed.

(** ** Position query *)

Lemma position_events_app (a b : list Event) :
  position_events (a ++ b) = position_events a ++ position_events b.
Proof. apply List.filter_app. Qed.

Lemma with_events_nil (w : World) : with_events [] w = w.
Proof. destruct w. unfold with_events. cbn. by rewrite app_nil_r. Qed.

(** One turn of the inner loop over the positions of a channel. *)
Lemma run_emit_position (name : string) (pos : StockPosition) (w : World) :
  emit_position name pos w =
    (Ok tt,
     with_events
       [EventLog {| msg := "创建持仓对象：";
                    msg_value := PositionDataValue
                      {| pos_symbol := sp_symbol pos;
                         pos_exchange := _get_exchange (sp_symbol pos);
                         pos_direction := LONG;
                         pos_volume := float (quantity pos);
                         pos_price := float (avg_cost pos);
                         pos_pnl := float (unrealized_pnl pos);
                         pos_gateway_name := name |};
                    log_gateway_name := gateway_name (self w) |};
        EventPosition
          {| pos_symbol := sp_symbol pos;
             pos_exchange := _get_exchange (sp_symbol pos);
             pos_direction := LONG;
             pos_volume := float (quantity pos);
             pos_price := float (avg_cost pos);
             pos_pnl := float (unrealized_pnl pos);
             pos_gateway_name := name |};
        EventLog {| msg := "持仓对象已发送到事件引擎";
                    msg_value := NoValue;
                    log_gateway_name := gateway_name (self w) |}] w).
Proof.
  unfold emit_position, with_events. run_method. rewrite <- !app_assoc.
  reflexivity.
Qed.

Lemma run_positions (name : string) (l : list StockPosition) (w : World) :
  exists new,
    for_each l (emit_position name) w = (Ok tt, with_events new w) /\
    position_events new =
      map (fun pos => EventPosition
             {| pos_symbol := sp_symbol pos;
                pos_exchange := _get_exchange (sp_symbol pos);
                pos_direction := LONG;
                pos_volume := float (quantity pos);
                pos_price := float (avg_cost pos);
                pos_pnl := float (unrealized_pnl pos);
                pos_gateway_name := name |}) l.
Proof.
  revert w. induction l as [|pos l IH]; intros w.
  - exists []. split; [|reflexivity]. cbn. by rewrite with_events_nil.
  - cbn [for_each]. rewrite run_bind, run_emit_position.
    match goal with
    | |- context [for_each l _ ?w1] => destruct (IH w1) as (new & Hrun & Hev)
    end.
    eexists. split.
    + rewrite Hrun, with_events_app. reflexivity.
    + rewrite position_events_app, Hev. reflexivity.
Qed.

Lemma run_channels (name : string) (l : list StockPositionChannel) (w : World) :
  exists new,
    for_each l (fun channel => for_each (positions channel) (emit_position name)) w
      = (Ok tt, with_events new w) /\
    position_events new =
      map (fun pos => EventPosition
             {| pos_symbol := sp_symbol pos;
                pos_exchange := _get_exchange (sp_symbol pos);
                pos_direction := LONG;
                pos_volume := float (quantity pos);
                pos_price := float (avg_cost pos);
                pos_pnl := float (unrealized_pnl pos);
                pos_gateway_name := name |})
          (concat (map positions l)).
Proof.
  revert w. induction l as [|channel l IH]; intros w.
  - exists []. split; [|reflexivity]. cbn. by rewrite with_events_nil.
  - cbn [for_each]. rewrite run_bind.
    destruct (run_positions name (positions channel) w) as (new1 & Hrun1 & Hev1).
    rewrite Hrun1.
    destruct (IH (with_events new1 w)) as (new2 & Hrun2 & Hev2).
    eexists. split.
    + rewrite Hrun2, with_events_app. reflexivity.
    + rewrite position_events_app, Hev1, Hev2. cbn [map concat].
      by rewrite List.map_app.
Qed.

(** X12: with the trade context assigned, when the SDK returns the
    positions query_position emits one position event per position, over
    all channels in order; each carries the SDK symbol as it came, suffix
    included, the exchange read back from that suffix, the direction LONG
    whatever the position, and quantity, average cost and unrealized P&L
    through float().  When the SDK call raises it emits no position
    event.  Either way it returns normally. *)
Theorem query_position_events (w : World) (ctx : TradeContext) :
  trade_ctx (self w) = Some ctx ->
  (query_position w).1 = Ok tt /\
  position_events (emitted w (query_position w).2) =
    match tc_stock_positions ctx with
    | Ok response =>
        map (fun pos => EventPosition
               {| pos_symbol := sp_symbol pos;
                  pos_exchange := _get_exchange (sp_symbol pos);
                  pos_direction := LONG;
                  pos_volume := float (quantity pos);
                  pos_price := float (avg_cost pos);
                  pos_pnl := float (unrealized_pnl pos);
                  pos_gateway_name := gateway_name (self w) |})
            (concat (map positions (channels response)))
    | Exc _ => []
    end.
Proof.
  intros Hctx. unfold query_position. run_method. rewrite Hctx. cbn.
  destruct (tc_stock_positions ctx) as [response|e]; cbn.
  - match goal with
    | |- context [for_each _ _ ?w1] =>
        destruct (run_channels (gateway_name (self w)) (channels response) w1)
          as (new & Hrun & Hev);
        rewrite Hrun
    end.
    unfold with_events. cbn. split; [reflexivity|].
    rewrite <- !app_assoc. erewrite emitted_app; [|reflexivity].
    cbn. exact Hev.
  - split; [reflexivity|].
    rewrite <- !app_assoc. erewrite emitted_app; [|reflexivity]. reflexivity.
Qed.

(** ** Swallowed exceptions *)

Lemma returns_ret {A} (a : A) : returns (mret a).
Proof. intros w. by exists a. Qed.

Lemma returns_bind {A B} (m : M A) (k : A -> M B) :
  returns m -> (forall a, returns (k a)) -> returns (m ≫= k).
Proof.
  intros Hm Hk w. rewrite run_bind. destruct (Hm w) as [a Ha].
  destruct (m w) as [[a'|e] w1]; cbn in Ha; [|discriminate].
  apply Hk.
Qed.

(** A [try] returns as soon as its handler does. *)
Lemma returns_try {A} (body : M A) (handler : exn -> M A) :
  (forall e, returns (handler e)) -> returns (try_except body handler).
Proof.
  intros Hh w. rewrite run_try.
  destruct (body w) as [[a|e] w1]; [by exists a | apply Hh].
Qed.

Lemma returns_get_world : returns get_world.
Proof. intros w. by exists w. Qed.

Lemma returns_write_log (text : string) (v : Interpolated) :
  returns (write_log text v).
Proof. intros w. by exists tt. Qed.

(** Walks a guarded method: the guard, then the [try] or the early
    return. *)
Ltac swallow :=
  repeat first
    [ progress intros
    | progress cbv zeta
    | apply returns_try
    | apply returns_bind
    | apply returns_ret
    | apply returns_get_world
    | apply returns_write_log
    | match goal with
      | |- returns (match ?x with _ => _ end) => destruct x
      end ].

(** X13: connect, send_order, cancel_order, query_account, query_position
    and query_history never raise: in every world and whatever the SDK
    answers, each returns normally, the exception of an SDK call being
    caught by the method's own handler. *)
Theorem swallowing_methods_return :
  (forall setting lib, returns (connect setting lib)) /\
  (forall req now, returns (send_order req now)) /\
  (forall req, returns (cancel_order req)) /\
  returns query_account /\
  returns query_position /\
  (forall req, returns (query_history req)).
Proof.
  repeat split.
  - unfold connect. swallow.
  - unfold send_order. swallow.
  - unfold cancel_order. swallow.
  - unfold query_account. swallow.
  - unfold query_position. swallow.
  - unfold query_history. swallow.
Qed.

(** X14: cancel_order and the three queries are read-only on the
    adapter: in every world and whatever the SDK answers they leave the
    adapter's attributes (contexts, tick cache, order map), the tick
    objects and the environment as they were; all they add is events and
    SDK calls. *)
Theorem queries_leave_adapter_alone (w : World) :
  (forall req, same_adapter w (cancel_order req w).2) /\
  same_adapter w (query_account w).2 /\
  same_adapter w (query_position w).2 /\
  (forall req, same_adapter w (query_history req w).2).
Proof.
  split; [|split; [|split]].
  - intros req. apply cancel_order_same_adapter.
  - apply query_account_same_adapter.
  - apply query_position_same_adapter.
  - intros req. apply query_history_same_adapter.
Qed.

(** ** An adapter that is never connected *)

Lemma inert_step (name : string) (w : World) (op : Op) :
  self w = __init__ name ->
  is_connect op = false ->
  exists logs,
    step w op = with_events logs w /\ forallb is_log_event logs = true.
Proof.
  intros Hself Hop.
  assert (quote_ctx (self w) = None) as Hq by (by rewrite Hself).
  assert (trade_ctx (self w) = None) as Ht by (by rewrite Hself).
  assert (forall symbol, ticks (self w) !! symbol = None) as Hticks
    by (intros symbol; by rewrite Hself).
  destruct op; try discriminate; cbn [step].
  - exists []. split; [|reflexivity]. rewrite with_events_nil.
    unfold close. run_method. rewrite Hq. cbn. by rewrite Ht.
  - exists []. split; [|reflexivity].
    by rewrite with_events_nil, (subscribe_disconnected w req now Hq).
  - exists []. split; [|reflexivity].
    by rewrite with_events_nil, (send_order_disconnected w req now Ht).
  - exists []. split; [|reflexivity]. rewrite with_events_nil.
    unfold cancel_order. run_method. by rewrite Ht.
  - eexists [_]. split.
    { unfold query_account. rewrite run_bind. cbn. rewrite Ht. reflexivity. }
    reflexivity.
  - eexists [_]. split.
    { unfold query_position. rewrite run_bind. cbn. rewrite Ht. reflexivity. }
    reflexivity.
  - eexists [_]. split.
    { unfold query_history. rewrite run_bind. cbn. rewrite Hq. reflexivity. }
    reflexivity.
  - exists []. split; [|reflexivity].
    by rewrite with_events_nil, (on_quote_missed w symbol event now (Hticks symbol)).
Qed.

(** X15: an adapter as made by [__init__] on which connect is never
    called stays inert over every sequence of the other operations and
    quote pushes: its attributes, the tick objects and the environment
    are as they were, no SDK call is made, and the only events are log
    lines. *)
Theorem never_connected_is_inert (name : string) (ops : list Op) (w : World) :
  self w = __init__ name ->
  forallb (fun op => negb (is_connect op)) ops = true ->
  exists logs,
    run ops w = with_events logs w /\ forallb is_log_event logs = true.
Proof.
  revert w. induction ops as [|op ops IH]; intros w Hself Hops.
  - exists []. split; [|reflexivity]. by rewrite with_events_nil.
  - rewrite run_cons. cbn [forallb] in Hops.
    apply andb_prop in Hops as [Hop Hops]. apply negb_true_iff in Hop.
    destruct (inert_step name w op Hself Hop) as (logs1 & -> & Hlogs1).
    destruct (IH (with_events logs1 w) Hself Hops) as (logs2 & -> & Hlogs2).
    exists (logs1 ++ logs2). split; [apply with_events_app|].
    by rewrite forallb_app, Hlogs1, Hlogs2.
Qed.

(** ** Symbols there and back *)

Lemma append_cancel_r (p q a : string) : p +:+ a = q +:+ a -> p = q.
Proof.
  revert q. induction p as [|c p IH]; intros [|d q] E.
  - reflexivity.
  - apply (f_equal String.length) in E.
    rewrite !append_length in E. cbn in E. lia.
  - apply (f_equal String.length) in E.
    rewrite !append_length in E. cbn in E. lia.
  - change (String c p +:+ a) with (String c (p +:+ a)) in E.
    change (String d q +:+ a) with (String d (q +:+ a)) in E.
    injection E as -> E. by rewrite (IH q E).
Qed.

(** X16: converting a host symbol for SEHK or NYSE and reading the
    exchange back from the SDK symbol gives the exchange again, whatever
    the symbol; for no symbol does the reverse lookup give an exchange
    other than these two, so for any other exchange the round trip does
    not come back. *)
Theorem get_exchange_convert_symbol (symbol : string) :
  _get_exchange (_convert_symbol symbol SEHK) = SEHK /\
  _get_exchange (_convert_symbol symbol NYSE) = NYSE /\
  (forall value,
     _get_exchange (_convert_symbol symbol (OtherExchange value))
       <> OtherExchange value).
Proof.
  unfold _get_exchange. cbn [_convert_symbol]. split; [|split].
  - by rewrite endswith_app.
  - destruct (endswith (symbol +:+ ".US") ".HK") eqn:Ehk.
    + apply endswith_inv in Ehk as [q Eq].
      apply append_same_suffix in Eq; [discriminate | reflexivity].
    + by rewrite endswith_app.
  - intros value. by destruct (endswith symbol ".HK"), (endswith symbol ".US").
Qed.

(** X17: on the two supported exchanges the conversion loses nothing: two
    requests get the same SDK symbol, and so the same key in the tick
    cache, only when they agree on symbol and exchange. *)
Theorem convert_symbol_injective (symbol symbol' : string)
    (exchange exchange' : Exchange) :
  In exchange [SEHK; NYSE] ->
  In exchange' [SEHK; NYSE] ->
  _convert_symbol symbol exchange = _convert_symbol symbol' exchange' ->
  symbol = symbol' /\ exchange = exchange'.
Proof.
  intros [<-|[<-|[]]] [<-|[<-|[]]]; cbn [_convert_symbol]; intros E.
  - split; [exact (append_cancel_r _ _ _ E) | reflexivity].
  - apply append_same_suffix in E; [discriminate | reflexivity].
  - apply append_same_suffix in E; [discriminate | reflexivity].
  - split; [exact (append_cancel_r _ _ _ E) | reflexivity].
Qed.

(** ** What reaches the SDK *)

(** X18: with the trade context assigned, send_order makes exactly one
    SDK call, a submit for the converted symbol with the request's volume
    and price through Decimal(str(.)) and a time in force of Day; the
    order type sent is MO exactly when the request's type is MARKET, and
    LO for every other type, and the side is Sell exactly when the
    direction is SHORT, and Buy for every other direction. *)
Theorem send_order_sdk_call (w : World) (req : OrderRequest) (now : datetime)
    (ctx : TradeContext) :
  trade_ctx (self w) = Some ctx ->
  exists order_type side,
    sdk_calls (send_order req now w).2 =
      sdk_calls w ++
        [CallSubmitOrder (_convert_symbol (req_symbol req) (req_exchange req))
           order_type side (Decimal_str (req_volume req)) Day
           (Decimal_str (req_price req))] /\
    (order_type = MO <-> req_type req = MARKET) /\
    (order_type = LO <-> req_type req <> MARKET) /\
    (side = Sell <-> req_direction req = SHORT) /\
    (side = Buy <-> req_direction req <> SHORT).
Proof.
  intros Hctx.
  exists (_convert_order_type (req_type req)),
         (_convert_direction (req_direction req)).
  split.
  - unfold send_order. run_method. rewrite Hctx. cbn.
    by destruct (tc_submit_order ctx _ _ _ _ _ _).
  - destruct (req_type req), (req_direction req); cbn;
      repeat split; intros; congruence.
Qed.

(** X19: query_history looks at the request's symbol, exchange and
    interval only: two requests that differ in start and end alone give
    the same result and leave the same world.  With the quote context
    assigned it makes exactly one SDK call, for 100 candlesticks without
    adjustment, at the one-minute period for MINUTE, the one-hour period
    for HOUR and the day period for DAILY and every other interval. *)
Theorem query_history_ignores_range (w : World) (req req' : HistoryRequest) :
  hist_symbol req = hist_symbol req' ->
  hist_exchange req = hist_exchange req' ->
  hist_interval req = hist_interval req' ->
  query_history req w = query_history req' w /\
  (forall ctx, quote_ctx (self w) = Some ctx ->
     exists period,
       sdk_calls (query_history req w).2 =
         sdk_calls w ++
           [CallCandlesticks
              (_convert_symbol (hist_symbol req) (hist_exchange req))
              period 100 NoAdjust] /\
       (period = Min1 <-> hist_interval req = MINUTE) /\
       (period = Hour1 <-> hist_interval req = HOUR) /\
       (period = PeriodDay <->
          hist_interval req <> MINUTE /\ hist_interval req <> HOUR)).
Proof.
  intros Hs He Hi. split.
  - destruct req, req'. cbn in Hs, He, Hi. subst. reflexivity.
  - intros ctx Hctx. exists (_convert_interval (hist_interval req)). split.
    + unfold query_history. run_method. rewrite Hctx. cbn.
      by destruct (qc_candlesticks ctx _ _ _ _).
    + destruct (hist_interval req); cbn; repeat split;
        intros; try congruence; intuition congruence.
Qed.

(** ** Subscriptions and quote pushes together *)

(** An accepted subscription emits nothing and calls the SDK once. *)
Lemma subscribe_accepted_trace (w : World) (req : SubscribeRequest)
    (now : datetime) (ctx : QuoteContext) :
  quote_ctx (self w) = Some ctx ->
  qc_subscribe ctx [_convert_symbol (sub_symbol req) (sub_exchange req)] [Quote]
    = Ok tt ->
  event_queue (subscribe req now w).2 = event_queue w /\
  sdk_calls (subscribe req now w).2 =
    sdk_calls w ++
      [CallSubscribe [_convert_symbol (sub_symbol req) (sub_exchange req)]
         [Quote]].
Proof.
  intros Hctx Hok. unfold subscribe. rewrite run_bind. cbn. rewrite Hctx.
  cbv zeta. rewrite run_bind. unfold sdk_call. rewrite Hok. cbn. auto.
Qed.

(** X20: after a subscription that the SDK accepts, a quote pushed for
    the converted symbol finds the tick: on_quote returns normally and
    emits exactly one tick event, for the tick object the subscription
    created, which now carries the request's symbol and exchange, the
    gateway's name, the time of the push and the quote's last price,
    volume, open, high, low and previous close through float().  The
    subscription itself emits nothing and makes one SDK call, for the
    converted symbol with the quote sub-type. *)
Theorem subscribe_then_quote (w : World) (req : SubscribeRequest)
    (now now' : datetime) (ctx : QuoteContext) (event : PushQuote) :
  quote_ctx (self w) = Some ctx ->
  qc_subscribe ctx [_convert_symbol (sub_symbol req) (sub_exchange req)] [Quote]
    = Ok tt ->
  emitted w (subscribe req now w).2 = [] /\
  sdk_calls (subscribe req now w).2 =
    sdk_calls w ++
      [CallSubscribe [_convert_symbol (sub_symbol req) (sub_exchange req)]
         [Quote]] /\
  (on_quote (_convert_symbol (sub_symbol req) (sub_exchange req)) event now'
     (subscribe req now w).2).1 = Ok tt /\
  emitted (subscribe req now w).2
    (on_quote (_convert_symbol (sub_symbol req) (sub_exchange req)) event now'
       (subscribe req now w).2).2 = [EventTick (length (tick_objects w))] /\
  tick_objects
    (on_quote (_convert_symbol (sub_symbol req) (sub_exchange req)) event now'
       (subscribe req now w).2).2 !! length (tick_objects w) =
    Some {| tick_symbol := sub_symbol req;
            tick_exchange := sub_exchange req;
            tick_datetime := now';
            tick_gateway_name := gateway_name (self w);
            tick_volume := PyFloat (float (pq_volume event));
            tick_last_price := PyFloat (float (last_done event));
            tick_open_price := PyFloat (float (pq_open event));
            tick_high_price := PyFloat (float (pq_high event));
            tick_low_price := PyFloat (float (pq_low event));
            tick_pre_close := PyFloat (float (prev_close event)) |}.
Proof.
  intros Hctx Hok.
  destruct (subscribe_accepted w req now ctx Hctx Hok) as (_ & Hticks & Hobjs).
  destruct (subscribe_accepted_trace w req now ctx Hctx Hok) as (Hev & Hcalls).
  assert (ticks (self (subscribe req now w).2)
            !! _convert_symbol (sub_symbol req) (sub_exchange req)
          = Some (length (tick_objects w))) as Hlook.
  { rewrite Hticks. apply lookup_insert_eq. }
  rewrite (on_quote_cached _ _ event now' _ Hlook). cbn.
  split; [apply emitted_app; by rewrite Hev, app_nil_r|].
  split; [exact Hcalls|]. split; [reflexivity|].
  split; [by apply emitted_app|].
  rewrite Hobjs, list_lookup_alter_eq, lookup_app_r by lia.
  by rewrite Nat.sub_diag.
Qed.

(** X21: the tick record is one mutable object shared by every event
    that carries it.  Two quotes pushed for a cached symbol emit two tick
    events for the same object, and after the second push that object
    holds the second quote alone, so the data of the first event has been
    overwritten; no other tick object is touched. *)
Theorem quotes_share_tick_object (w : World) (symbol : string) (r : tick_ref)
    (tick : TickData) (event1 event2 : PushQuote) (now1 now2 : datetime) :
  ticks (self w) !! symbol = Some r ->
  tick_objects w !! r = Some tick ->
  emitted w
    (on_quote symbol event2 now2 (on_quote symbol event1 now1 w).2).2
    = [EventTick r; EventTick r] /\
  tick_objects (on_quote symbol event1 now1 w).2 !! r
    = Some (apply_quote event1 now1 tick) /\
  tick_objects
    (on_quote symbol event2 now2 (on_quote symbol event1 now1 w).2).2 !! r
    = Some (apply_quote event2 now2 tick) /\
  (forall r', r' <> r ->
     tick_objects
       (on_quote symbol event2 now2 (on_quote symbol event1 now1 w).2).2 !! r'
     = tick_objects w !! r').
Proof.
  intros Hlook Hobj. unfold tick_ref in *.
  pose proof (on_quote_cached w symbol event1 now1 r Hlook) as E1.
  assert (ticks (self (on_quote symbol event1 now1 w).2) !! symbol = Some r)
    as Hlook1 by (by rewrite E1).
  rewrite (on_quote_cached _ symbol event2 now2 r Hlook1), E1. cbn.
  split; [apply emitted_app; cbn; by rewrite <- app_assoc|].
  split; [by rewrite list_lookup_alter_eq, Hobj|].
  split; [by rewrite !list_lookup_alter_eq, Hobj|].
  intros r' Hne. by rewrite !list_lookup_alter_ne.
Qed.

(** X22: subscribing again to a symbol that is already cached adds no
    key but replaces the entry: the cache now points to a new tick object
    with every price at zero, the last prices are not carried over, and
    the old object stays in the store as it was and is no longer the one
    a later quote for the symbol updates. *)
Theorem resubscribe_resets_tick (w : World) (req : SubscribeRequest)
    (now : datetime) (ctx : QuoteContext) (r : tick_ref) :
  ticks_stored w ->
  ticks (self w) !! _convert_symbol (sub_symbol req) (sub_exchange req)
    = Some r ->
  quote_ctx (self w) = Some ctx ->
  qc_subscribe ctx [_convert_symbol (sub_symbol req) (sub_exchange req)] [Quote]
    = Ok tt ->
  dom (ticks (self (subscribe req now w).2)) = dom (ticks (self w)) /\
  ticks (self (subscribe req now w).2)
    !! _convert_symbol (sub_symbol req) (sub_exchange req)
    = Some (length (tick_objects w)) /\
  length (tick_objects w) <> r /\
  (exists tick,
     tick_objects (subscribe req now w).2 !! length (tick_objects w)
       = Some tick /\
     tick_last_price tick = PyInt 0 /\
     tick_volume tick = PyInt 0 /\
     tick_open_price tick = PyInt 0 /\
     tick_high_price tick = PyInt 0 /\
     tick_low_price tick = PyInt 0 /\
     tick_pre_close tick = PyInt 0) /\
  tick_objects (subscribe req now w).2 !! r = tick_objects w !! r /\
  (forall event now',
     tick_objects
       (on_quote (_convert_symbol (sub_symbol req) (sub_exchange req))
          event now' (subscribe req now w).2).2 !! r
     = tick_objects w !! r).
Proof.
  intros Hstored Hold Hctx Hok.
  destruct (subscribe_accepted w req now ctx Hctx Hok) as (_ & Hticks & Hobjs).
  pose proof (Hstored _ _ Hold) as Hr.
  assert (ticks (self (subscribe req now w).2)
            !! _convert_symbol (sub_symbol req) (sub_exchange req)
          = Some (length (tick_objects w))) as Hlook.
  { rewrite Hticks. apply lookup_insert_eq. }
  assert (tick_objects (subscribe req now w).2 !! r = tick_objects w !! r)
    as Hkept.
  { rewrite Hobjs. by apply lookup_app_l. }
  split; [rewrite Hticks; apply dom_insert_lookup_L; by rewrite Hold|].
  split; [exact Hlook|]. split; [lia|]. split; [|split; [exact Hkept|]].
  - rewrite Hobjs. eexists. split.
    + rewrite lookup_app_r, Nat.sub_diag; [reflexivity | lia].
    + repeat split.
  - intros event now'.
    rewrite (on_quote_cached _ _ event now' _ Hlook). cbn.
    rewrite list_lookup_alter_ne by lia. exact Hkept.
Qed.

End Properties.

(** * The properties at the sample worlds *)

Section Witnesses.
#[local] Existing Instance hundredths.

Lemma send_order_outcome_witness :
  (exists order,
     (send_order sample_order 5%Z connected_world).1 = Ok (vt_orderid order) /\
     vt_orderid order = "LONGPORT.1001" /\
     emitted connected_world (send_order sample_order 5%Z connected_world).2
       = [EventOrder order] /\
     order_status order = SUBMITTING) /\
  (send_order sample_order 5%Z (world_with None (Some failing_trade_ctx))).1
    = Ok "".
Proof.
  split.
  - destruct (send_order_outcome connected_world sample_order 5%Z
                sample_trade_ctx eq_refl)
      as (order & Hret & Hid & _ & _ & Hev & Hst & _).
    exists order. repeat split; assumption.
  - apply (send_order_outcome (world_with None (Some failing_trade_ctx))
             sample_order 5%Z failing_trade_ctx eq_refl).
Defined.

Lemma query_account_events_witness :
  account_events (emitted connected_world (query_account connected_world).2) =
    [ EventAccount {| accountid := "HKD"; balance := 1000000%Z;
                      frozen := 2500%Z; account_gateway_name := "LONGPORT" |};
      EventAccount {| accountid := "USD"; balance := 50000%Z;
                      frozen := 0%Z; account_gateway_name := "LONGPORT" |} ] /\
  account_events
    (emitted (world_with None (Some no_account_trade_ctx))
       (query_account (world_with None (Some no_account_trade_ctx))).2) = [].
Proof.
  split.
  - apply (query_account_events connected_world sample_trade_ctx eq_refl).
  - apply (query_account_events (world_with None (Some no_account_trade_ctx))
             no_account_trade_ctx eq_refl).
Defined.

Lemma query_history_bars_witness :
  exists result,
    (query_history sample_history connected_world).1 = Ok result /\
    length result = 2.
Proof.
  destruct (query_history_bars connected_world sample_history sample_quote_ctx
              eq_refl) as (result & Hret & Hlen & _).
  exists result. split; assumption.
Defined.

Lemma subscribe_error_propagates_witness :
  (subscribe sample_subscribe 7%Z (world_with (Some failing_quote_ctx) None)).1
    = Exc "subscribe rejected" /\
  ticks (self (subscribe sample_subscribe 7%Z
                 (world_with (Some failing_quote_ctx) None)).2) = ∅.
Proof.
  destruct (subscribe_error_propagates (world_with (Some failing_quote_ctx) None)
              sample_subscribe 7%Z failing_quote_ctx "subscribe rejected"
              eq_refl eq_refl) as (Hret & Hticks & _).
  split; assumption.
Defined.

Lemma query_account_first_account_only_witness :
  length (account_events
            (emitted connected_world (query_account connected_world).2)) = 2.
Proof.
  apply (proj1 (proj2 (query_account_first_account_only connected_world
                         sample_trade_ctx _ _ eq_refl eq_refl))).
Defined.

(** The sample response holds three cash entries in two accounts, and the
    entry of the second account is not among the events. *)
Lemma query_account_skips_second_account :
  trade_ctx (self connected_world) = Some sample_trade_ctx /\
  tc_account_balance sample_trade_ctx = Ok sample_accounts /\
  length (concat (map cash_infos sample_accounts)) = 3 /\
  length (account_events
            (emitted connected_world (query_account connected_world).2)) = 2 /\
  ~ In (EventAccount {| accountid := "SGD"; balance := 700%Z; frozen := 0%Z;
                        account_gateway_name := "LONGPORT" |})
       (emitted connected_world (query_account connected_world).2).
Proof.
  repeat split. vm_compute. intuition discriminate.
Qed.

Lemma get_exchange_spec_witness :
  _get_exchange "700.HK" = SEHK /\ _get_exchange "AAPL.US" = NYSE.
Proof.
  split.
  - apply (proj1 (get_exchange_spec "700.HK")). by exists "700".
  - apply (proj1 (proj2 (get_exchange_spec "AAPL.US"))). by exists "AAPL".
Defined.

Lemma on_quote_unsubscribed_witness :
  on_quote "AAPL.US" sample_quote 9%Z
    (subscribe sample_subscribe 7%Z connected_world).2
  = (Ok tt, (subscribe sample_subscribe 7%Z connected_world).2).
Proof.
  apply (on_quote_unsubscribed
           (subscribe sample_subscribe 7%Z connected_world).2
           "AAPL.US" sample_quote 9%Z).
  vm_compute. reflexivity.
Defined.

Lemma tick_cache_only_grows_witness :
  "700.HK" ∈ dom (ticks (self
    (run [OpOnQuote "700.HK" sample_quote 9%Z; OpClose;
          OpQueryAccount; OpConnect ∅ sample_sdk]
       (subscribe sample_subscribe 7%Z connected_world).2))).
Proof.
  apply (proj2 (proj2 (proj2 tick_cache_only_grows)) connected_world
           sample_subscribe 7%Z sample_quote_ctx); reflexivity.
Defined.

Lemma disconnected_noop_witness :
  send_order sample_order 5%Z fresh_world = (Ok "", fresh_world) /\
  subscribe sample_subscribe 7%Z fresh_world = (Ok tt, fresh_world) /\
  (query_history sample_history fresh_world).1 = Ok [].
Proof.
  destruct (disconnected_noop fresh_world eq_refl eq_refl)
    as (Hsub & _ & Hsend & _ & Hhist & _).
  split; [apply Hsend|]. split; [apply Hsub|].
  destruct (Hhist sample_history) as [line ->]. reflexivity.
Defined.

End Witnesses.

(** * The further properties at the sample worlds *)

Section MoreWitnesses.
#[local] Existing Instance hundredths.

Lemma connected_world_stored : ticks_stored connected_world.
Proof. intros symbol r Hlook. cbn in Hlook. by rewrite lookup_empty in Hlook. Qed.

Lemma subscribed_world_stored : ticks_stored subscribed_world.
Proof.
  exact (proj1 (step_ticks_stored connected_world
                  (OpSubscribe sample_subscribe 7%Z) connected_world_stored)).
Qed.

Lemma contexts_change_only_by_connect_witness :
  quote_ctx (self (run [OpClose; OpSubscribe sample_subscribe 7%Z;
                        OpQueryAccount] connected_world))
    = Some sample_quote_ctx /\
  trade_ctx (self (run [OpClose; OpSubscribe sample_subscribe 7%Z;
                        OpQueryAccount] connected_world))
    = Some sample_trade_ctx.
Proof.
  exact (contexts_change_only_by_connect
           [OpClose; OpSubscribe sample_subscribe 7%Z; OpQueryAccount]
           connected_world eq_refl).
Defined.

Lemma connect_succeeds_witness :
  quote_ctx (self (connect sample_setting sample_sdk fresh_world).2)
    = Some sample_quote_ctx /\
  trade_ctx (self (connect sample_setting sample_sdk fresh_world).2)
    = Some sample_trade_ctx.
Proof.
  destruct (connect_succeeds fresh_world sample_setting sample_sdk
              "key" "secret" "token"
              {| app_key := "key"; app_secret := "secret";
                 access_token := "token" |}
              sample_quote_ctx sample_trade_ctx
              eq_refl eq_refl eq_refl eq_refl eq_refl eq_refl
              eq_refl eq_refl eq_refl eq_refl)
    as (_ & Hq & Ht & _).
  split; assumption.
Defined.


Lemma connect_assigns_before_failing_witness :
  quote_ctx (self (connect sample_setting half_sdk fresh_world).2)
    = Some sample_quote_ctx /\
  trade_ctx (self (connect sample_setting half_sdk fresh_world).2) = None.
Proof.
  destruct (connect_assigns_before_failing fresh_world sample_setting half_sdk
              "key" "secret" "token"
              {| app_key := "key"; app_secret := "secret";
                 access_token := "token" |}
              sample_quote_ctx eq_refl eq_refl eq_refl eq_refl eq_refl eq_refl
              eq_refl eq_refl)
    as (Hq & Ht & _).
  split; assumption.
Defined.

Lemma close_stops_at_first_failure_witness :
  (close connected_world).1 = Ok tt /\
  sdk_calls (close connected_world).2 = [CallQuoteClose; CallTradeClose].
Proof.
  exact (close_stops_at_first_failure connected_world sample_quote_ctx
           sample_trade_ctx eq_refl eq_refl).
Defined.

Lemma cancel_order_forwards_witness :
  sdk_calls (cancel_order sample_cancel connected_world).2
    = [CallCancelOrder "1001"].
Proof.
  destruct (cancel_order_forwards connected_world sample_cancel
              sample_trade_ctx eq_refl) as (_ & _ & Hcalls & _).
  exact Hcalls.
Defined.

Lemma query_position_events_witness :
  (query_position connected_world).1 = Ok tt /\
  length (position_events
            (emitted connected_world (query_position connected_world).2)) = 2.
Proof.
  destruct (query_position_events connected_world sample_trade_ctx eq_refl)
    as (Hret & Hev).
  split; [exact Hret|]. rewrite Hev. reflexivity.
Defined.

Lemma never_connected_is_inert_witness :
  sdk_calls (run [OpSubscribe sample_subscribe 7%Z; OpQueryAccount;
                  OpSendOrder sample_order 5%Z;
                  OpOnQuote "700.HK" sample_quote 9%Z] fresh_world) = [].
Proof.
  destruct (never_connected_is_inert "LONGPORT"
              [OpSubscribe sample_subscribe 7%Z; OpQueryAccount;
               OpSendOrder sample_order 5%Z;
               OpOnQuote "700.HK" sample_quote 9%Z]
              fresh_world eq_refl eq_refl) as (logs & -> & _).
  reflexivity.
Defined.

Lemma convert_symbol_injective_witness :
  "700" = "700" /\ SEHK = SEHK.
Proof.
  exact (convert_symbol_injective "700" "700" SEHK SEHK
           (or_introl eq_refl) (or_introl eq_refl) eq_refl).
Defined.

Lemma send_order_sdk_call_witness :
  sdk_calls (send_order sample_order 5%Z connected_world).2 =
    [CallSubmitOrder "700.HK" LO Buy 10000%Z Day 32050%Z].
Proof.
  destruct (send_order_sdk_call connected_world sample_order 5%Z
              sample_trade_ctx eq_refl)
    as (order_type & side & Hcalls & _ & Hlo & _ & Hbuy).
  rewrite Hcalls.
  rewrite (proj2 Hlo) by discriminate. rewrite (proj2 Hbuy) by discriminate.
  reflexivity.
Defined.

Lemma query_history_ignores_range_witness :
  query_history sample_history connected_world =
  query_history
    {| hist_symbol := "700"; hist_exchange := SEHK; hist_start := 0%Z;
       hist_end := 1%Z; hist_interval := DAILY |} connected_world.
Proof.
  exact (proj1 (query_history_ignores_range connected_world sample_history
                  {| hist_symbol := "700"; hist_exchange := SEHK;
                     hist_start := 0%Z; hist_end := 1%Z;
                     hist_interval := DAILY |} eq_refl eq_refl eq_refl)).
Defined.

Lemma subscribe_then_quote_witness :
  (on_quote "700.HK" sample_quote 9%Z subscribed_world).1 = Ok tt /\
  emitted subscribed_world (on_quote "700.HK" sample_quote 9%Z subscribed_world).2
    = [EventTick 0].
Proof.
  destruct (subscribe_then_quote connected_world sample_subscribe 7%Z 9%Z
              sample_quote_ctx sample_quote eq_refl eq_refl)
    as (_ & _ & Hret & Hev & _).
  split; [exact Hret | exact Hev].
Defined.

Lemma quotes_share_tick_object_witness :
  emitted subscribed_world
    (on_quote "700.HK" sample_quote 11%Z
       (on_quote "700.HK" sample_quote 9%Z subscribed_world).2).2
    = [EventTick 0; EventTick 0].
Proof.
  refine (proj1 (quotes_share_tick_object subscribed_world "700.HK" 0
                   {| tick_symbol := "700"; tick_exchange := SEHK;
                      tick_datetime := 7%Z; tick_gateway_name := "LONGPORT";
                      tick_volume := PyInt 0; tick_last_price := PyInt 0;
                      tick_open_price := PyInt 0; tick_high_price := PyInt 0;
                      tick_low_price := PyInt 0; tick_pre_close := PyInt 0 |}
                   sample_quote sample_quote 9%Z 11%Z _ _));
    vm_compute; reflexivity.
Defined.

Lemma resubscribe_resets_tick_witness :
  ticks (self (subscribe sample_subscribe 8%Z subscribed_world).2) !! "700.HK"
    = Some 1.
Proof.
  refine (proj1 (proj2 (resubscribe_resets_tick subscribed_world
                          sample_subscribe 8%Z sample_quote_ctx 0
                          subscribed_world_stored _ eq_refl eq_refl))).
  vm_compute. reflexivity.
Defined.

End MoreWitnesses.
